(** * dss: a minimal shell, its pipeline orchestrator and a cd utility

    Shallow embedding of [src/c/stage1_shell.c], [src/c/pipe.c] and
    [src/c/cd.c].

    The three programs are C code whose whole behaviour is the system calls
    they issue.  Each C function is written as a program in a small monad of
    system calls ([prog]); the operating system is a handler ([handle]) that
    gives every call its result and its effect on the calling process (its
    descriptor table and working directory) and on the machine (the pid and
    pipe counters, the terminal's pending lines, the log of calls).
    [fork] answers twice: the handler hands the continuation of the program
    to the child with result 0 and to the parent with the child's pid, which
    is what lets the model follow a child that does not leave the parent's
    code.

    What the host decides (whether a program resolves, whether a directory
    exists, whether the process table is full) is an [os_model], a parameter
    of the development.

    Processes run one after the other, a child before its parent goes on.
    For the shell that is the order waitpid imposes.  For the pipeline the
    processes really run side by side; the calls each one makes and the
    descriptors it holds do not depend on the order, only the pids and pipe
    numbers handed out do.  A program that replaced the process is outside
    the model.  Not modelled: the buffering of printf (a call is logged
    when it is made), free, and a malloc that returns the null pointer. *)

From Stdlib Require Import List ZArith String Ascii Bool Lia.
Import ListNotations.

Local Open Scope string_scope.
Local Open Scope list_scope.
Local Open Scope Z_scope.

(* ================================================================== *)
(** ** Descriptor tables *)
(* ================================================================== *)

(** What a descriptor refers to: one of the three terminal streams the
    process was started with, or one end of a pipe. *)
Inductive fobj : Type :=
| Stdin0
| Stdout0
| Stderr0
| PipeR (id : nat)
| PipeW (id : nat).

(** A descriptor table: slot [n] holds what descriptor [n] refers to,
    [None] when the descriptor is closed. *)
Definition fdtable := list (option fobj).

Definition fd_get (t : fdtable) (n : nat) : option fobj := nth n t None.

Fixpoint fd_put (t : fdtable) (n : nat) (v : option fobj) : fdtable :=
  match n, t with
  | O, [] => [v]
  | O, _ :: t' => v :: t'
  | S n', [] => None :: fd_put [] n' v
  | S n', x :: t' => x :: fd_put t' n' v
  end.

(** The kernel hands out the lowest closed descriptor. *)
Fixpoint fd_alloc (t : fdtable) : nat :=
  match t with
  | [] => O
  | None :: _ => O
  | Some _ :: t' => S (fd_alloc t')
  end.

(** Descriptors of the C code are [int]s. *)
Definition fd_lookup (t : fdtable) (fd : Z) : option fobj :=
  if fd <? 0 then None else fd_get t (Z.to_nat fd).

Definition open_fds (t : fdtable) : list Z :=
  map (fun n => Z.of_nat n)
      (filter (fun n => match fd_get t n with Some _ => true | None => false end)
              (seq 0 (List.length t))).

(* ================================================================== *)
(** ** Processes, system calls, the log *)
(* ================================================================== *)

Record proc : Type := mkProc {
  pid : Z;
  fds : fdtable;
  dir : string          (* the working directory *)
}.

(** An argument of a [printf] call. *)
Inductive parg : Type :=
| PInt (z : Z)
| PStr (s : string).

(** The calls the three programs make.  The index is the C result type:
    [Exit] and [Undefined] have no result because they do not return. *)
Inductive sys : Type -> Type :=
| Readline (prompt : string) : sys (option string)
| Printf (fmt : string) (args : list parg) : sys unit
| Perror (s : string) : sys unit
| Fork : sys Z
| Execvp (file : option string) (argv : list string) : sys Z
| Exit (code : Z) : sys Empty_set
| Waitpid (child : Z) : sys unit
| Chdir (path : option string) : sys Z
| Getcwd (size : nat) : sys (option string)
| Pipe : sys (option (Z * Z))
| Dup2 (oldfd newfd : Z) : sys Z
| Close (fd : Z) : sys Z
| Undefined (why : string) : sys Empty_set.

(** A logged call, with its result.  [EBlocked c] is a call of waitpid that
    has not returned: child [c] is still running. *)
Inductive event : Type :=
| EReadline (prompt : string) (r : option string)
| EPrintf (fmt : string) (args : list parg)
| EPerror (s : string)
| EFork (r : Z)
| EExecvp (file : option string) (argv : list string) (r : option Z)
| EExit (code : Z)
| EWaitpid (child : Z)
| EBlocked (child : Z)
| EChdir (path : option string) (r : Z)
| EGetcwd (size : nat) (r : option string)
| EPipe (r : option (Z * Z))
| EDup2 (oldfd newfd : Z) (r : Z)
| EClose (fd : Z) (r : Z)
| EUndefined (why : string).

(** The machine: the lines the terminal still has to deliver, the counters
    the kernel allocates pids and pipes from, how many [fork] and [pipe]
    calls were made so far, and the log: every call in the order it was
    made, with the calling process as it was when it made the call. *)
Record world : Type := mkWorld {
  input : list string;
  next_pid : positive;      (* pids are positive *)
  next_pipe : nat;
  nfork : nat;
  npipe : nat;
  log : list (proc * event)
}.

(** What the host decides. *)
Record os_model : Type := mkOs {
  fork_fails : nat -> bool;            (* the k-th fork call fails *)
  pipe_fails : nat -> bool;            (* the k-th pipe call fails *)
  exec_ok : string -> string -> bool;  (* cwd, file: the program resolves *)
  chdir_os : string -> string -> option string;
                                       (* cwd, path: the new directory *)
  getcwd_fails : string -> bool        (* the directory cannot be named *)
}.

(* ================================================================== *)
(** ** Programs *)
(* ================================================================== *)

Inductive prog (R : Type) : Type :=
| Ret (r : R)
| Vis (X : Type) (e : sys X) (k : X -> prog R).

Arguments Ret {R} r.
Arguments Vis {R X} e k.

Fixpoint bind {A B : Type} (m : prog A) (f : A -> prog B) : prog B :=
  match m with
  | Ret a => f a
  | Vis e k => Vis e (fun x => bind (k x) f)
  end.

Definition call {X : Type} (e : sys X) : prog X := Vis e Ret.

(** A call that does not return. *)
Definition stop {R : Type} (e : sys Empty_set) : prog R :=
  Vis e (fun x : Empty_set => match x with end).

Declare Scope prog_scope.
Delimit Scope prog_scope with prog.
Notation "x <- m ;; k" := (bind m (fun x => k))
  (at level 61, m at next level, right associativity) : prog_scope.
Notation "m ;; k" := (bind m (fun _ => k))
  (at level 61, right associativity) : prog_scope.
Local Open Scope prog_scope.

(* ================================================================== *)
(** ** The operating system *)
(* ================================================================== *)

Definition set_fds (p : proc) (t : fdtable) : proc :=
  mkProc (pid p) t (dir p).

Definition set_dir (p : proc) (d : string) : proc :=
  mkProc (pid p) (fds p) d.

Definition set_pid (p : proc) (n : Z) : proc :=
  mkProc n (fds p) (dir p).

Definition emit (p : proc) (e : event) (w : world) : world :=
  mkWorld (input w) (next_pid w) (next_pipe w) (nfork w) (npipe w)
          (log w ++ [(p, e)]).

(** The calls after which the model follows a process no further: it
    exited, it became another program, or its behaviour is undefined.  For
    the last the end is a convention of the model, not a fact about the
    process: what is proved of what a process goes on to do is proved of
    runs without such a step. *)
Definition is_terminal (e : event) : bool :=
  match e with
  | EExit _ => true
  | EExecvp _ _ None => true
  | EUndefined _ => true
  | _ => false
  end.

(** Process [c] has made such a call.  A child that became another program
    is outside the model from then on; waitpid is taken to return for it,
    as it does once that program ends. *)
Definition terminated (c : Z) (l : list (proc * event)) : bool :=
  existsb (fun x => (pid (fst x) =? c) && is_terminal (snd x)) l.

(** The terminal delivered a line: [l] is what it still holds. *)
Definition set_input (w : world) (l : list string) : world :=
  mkWorld l (next_pid w) (next_pipe w) (nfork w) (npipe w) (log w).

(** One more call of fork, one more call of pipe. *)
Definition count_fork (w : world) : world :=
  mkWorld (input w) (next_pid w) (next_pipe w) (S (nfork w)) (npipe w)
          (log w).

Definition count_pipe (w : world) : world :=
  mkWorld (input w) (next_pid w) (next_pipe w) (nfork w) (S (npipe w))
          (log w).

(** A pid, a pipe was handed out. *)
Definition new_pid (w : world) : world :=
  mkWorld (input w) (Pos.succ (next_pid w)) (next_pipe w) (nfork w) (npipe w)
          (log w).

Definition new_pipe (w : world) : world :=
  mkWorld (input w) (next_pid w) (S (next_pipe w)) (nfork w) (npipe w)
          (log w).

Section OS.

Variable os : os_model.

(** [handle e p w]: the results of call [e] made by process [p] on
    machine [w], each with the process it is delivered to, and the machine
    after the call.  No result: the process is gone (it exited, or became
    another program).  Two results: [fork] succeeded. *)
Definition handle {X : Type} (e : sys X) (p : proc) (w : world)
  : list (X * proc) * world :=
  match e in sys X return list (X * proc) * world with
  | Readline prompt =>
      let r := hd_error (input w) in
      ([(r, p)], emit p (EReadline prompt r) (set_input w (tl (input w))))
  | Printf fmt args => ([(tt, p)], emit p (EPrintf fmt args) w)
  | Perror s => ([(tt, p)], emit p (EPerror s) w)
  | Fork =>
      if fork_fails os (nfork w)
      then ([(-1, p)], emit p (EFork (-1)) (count_fork w))
      else
        let c := Z.pos (next_pid w) in
        ([(0, set_pid p c); (c, p)],
         emit p (EFork c) (new_pid (count_fork w)))
  | Execvp file argv =>
      match file with
      | Some f =>
          if exec_ok os (dir p) f
          then ([], emit p (EExecvp file argv None) w)
          else ([(-1, p)], emit p (EExecvp file argv (Some (-1))) w)
      | None => ([(-1, p)], emit p (EExecvp file argv (Some (-1))) w)
      end
  | Exit code => ([], emit p (EExit code) w)
  | Waitpid child =>
      if terminated child (log w)
      then ([(tt, p)], emit p (EWaitpid child) w)
      else ([], emit p (EBlocked child) w)
  | Chdir path =>
      match path with
      | Some d =>
          match chdir_os os (dir p) d with
          | Some d' => ([(0, set_dir p d')], emit p (EChdir path 0) w)
          | None => ([(-1, p)], emit p (EChdir path (-1)) w)
          end
      | None => ([(-1, p)], emit p (EChdir path (-1)) w)
      end
  | Getcwd size =>
      let r := if getcwd_fails os (dir p)
                  || (size <? S (String.length (dir p)))%nat
               then None else Some (dir p) in
      ([(r, p)], emit p (EGetcwd size r) w)
  | Pipe =>
      if pipe_fails os (npipe w)
      then ([(None, p)], emit p (EPipe None) (count_pipe w))
      else
        let id := next_pipe w in
        let r := fd_alloc (fds p) in
        let t1 := fd_put (fds p) r (Some (PipeR id)) in
        let wr := fd_alloc t1 in
        let t2 := fd_put t1 wr (Some (PipeW id)) in
        let res := Some (Z.of_nat r, Z.of_nat wr) in
        ([(res, set_fds p t2)],
         emit p (EPipe res) (new_pipe (count_pipe w)))
  | Dup2 oldfd newfd =>
      match fd_lookup (fds p) oldfd with
      | Some o =>
          if newfd <? 0 then ([(-1, p)], emit p (EDup2 oldfd newfd (-1)) w)
          else
            ([(newfd, set_fds p (fd_put (fds p) (Z.to_nat newfd) (Some o)))],
             emit p (EDup2 oldfd newfd newfd) w)
      | None => ([(-1, p)], emit p (EDup2 oldfd newfd (-1)) w)
      end
  | Close fd =>
      match fd_lookup (fds p) fd with
      | Some _ =>
          ([(0, set_fds p (fd_put (fds p) (Z.to_nat fd) None))],
           emit p (EClose fd 0) w)
      | None => ([(-1, p)], emit p (EClose fd (-1)) w)
      end
  | Undefined why => ([], emit p (EUndefined why) w)
  end.

(** Running the continuation on every result of a call, one process after
    the other, each on the machine the one before left. *)
Definition run_outs {X R : Type}
    (step : X -> proc -> world -> list (proc * R) * world)
    (outs : list (X * proc)) (w : world) : list (proc * R) * world :=
  fold_left
    (fun (acc : list (proc * R) * world) (o : X * proc) =>
       let '(l, w') := step (fst o) (snd o) (snd acc) in
       (fst acc ++ l, w'))
    outs ([], w).

(** Running a program.  The result lists the processes that reached the
    end of the program, each with the value it returned, and the machine at
    that point.  After a successful [fork] the child runs first, up to the
    end of the program or of the process, then the parent goes on.  A
    process that calls waitpid for a child that reached the end of the
    program (a loop that ran out of fuel) stays blocked there. *)
Fixpoint interp {R : Type} (m : prog R) (p : proc) (w : world)
  : list (proc * R) * world :=
  match m with
  | Ret r => ([(p, r)], w)
  | Vis e k =>
      run_outs (fun x => interp (k x))
               (fst (handle e p w)) (snd (handle e p w))
  end.

End OS.

(* ================================================================== *)
(** ** src/c/stage1_shell.c *)
(* ================================================================== *)

Definition nl : string := String (ascii_of_nat 10) EmptyString.

(** A slot of a [char *] array: not written yet, the null pointer, or a
    pointer to a string. *)
Inductive slot : Type :=
| Uninit
| Null
| Ptr (s : string).

Module Stage1Shell.

(** *** strtok *)

(** [c] is one of the separator characters. *)
Fixpoint is_delim (separator : string) (c : ascii) : bool :=
  match separator with
  | EmptyString => false
  | String d separator' => Ascii.eqb c d || is_delim separator' c
  end.

(** The start of the next token: the separators in front are skipped. *)
Fixpoint skip_delims (separator s : string) : string :=
  match s with
  | EmptyString => EmptyString
  | String c s' =>
      if is_delim separator c then skip_delims separator s' else s
  end.

(** The token that starts here, and where the scan resumes: after the
    separator that ended the token (which strtok overwrites with the
    terminator), or at the end of the string. *)
Fixpoint scan_token (separator s : string) : string * string :=
  match s with
  | EmptyString => (EmptyString, EmptyString)
  | String c s' =>
      if is_delim separator c then (EmptyString, s')
      else let '(t, r) := scan_token separator s' in (String c t, r)
  end.

(** One call of strtok on the text still to scan: the token, or [None]
    for the null pointer, and the text left for the next call. *)
Definition strtok (saved separator : string) : option string * string :=
  match skip_delims separator saved with
  | EmptyString => (None, EmptyString)
  | String c s' => let '(t, r) := scan_token separator (String c s') in
                   (Some t, r)
  end.

(** *** get_input *)

(** The stores [command[index] = parsed] of the while loop, in order, and
    the value of [index] when the loop ends.  [fuel] bounds the number of
    iterations; [get_input_loop_words] shows that the length of the text is
    enough. *)
Fixpoint get_input_loop (fuel : nat) (separator : string)
    (parsed : option string) (saved : string) (index : Z)
  : option (list (Z * slot) * Z) :=
  match parsed with
  | None => Some ([], index)
  | Some tok =>
      match fuel with
      | O => None
      | S fuel' =>
          let '(parsed', saved') := strtok saved separator in
          match get_input_loop fuel' separator parsed' saved' (index + 1) with
          | Some (stores, index') => Some ((index, Ptr tok) :: stores, index')
          | None => None
          end
      end
  end.

(** Every store [get_input] issues into [command], in order: one per
    token, then the null entry. *)
Definition get_input_stores (input : string) : list (Z * slot) :=
  let separator := " " in
  let index := 0 in
  let '(parsed, saved) := strtok input separator in
  match get_input_loop (String.length input) separator parsed saved index with
  | Some (stores, index') => stores ++ [(index', Null)]
  | None => []
  end.

(** [malloc(8 * sizeof(char * ))]. *)
Definition command_slots : nat := 8.

Definition malloc_command : list slot := repeat Uninit command_slots.

Definition in_bounds (b : list slot) (i : Z) : bool :=
  (0 <=? i) && (i <? Z.of_nat (List.length b)).

Fixpoint set_slot (b : list slot) (n : nat) (v : slot) : list slot :=
  match b, n with
  | [], _ => []
  | _ :: b', O => v :: b'
  | x :: b', S n' => x :: set_slot b' n' v
  end.

(** [b[i] = v]; a store outside the allocation has no defined result. *)
Definition store (b : list slot) (i : Z) (v : slot) : option (list slot) :=
  if in_bounds b i then Some (set_slot b (Z.to_nat i) v) else None.

Fixpoint run_stores (b : list slot) (stores : list (Z * slot))
  : option (list slot) :=
  match stores with
  | [] => Some b
  | (i, v) :: stores' =>
      match store b i v with
      | Some b' => run_stores b' stores'
      | None => None
      end
  end.

(** The array [get_input] returns; [None] when one of its stores is
    outside the allocation. *)
Definition get_input (input : string) : option (list slot) :=
  run_stores malloc_command (get_input_stores input).

(** The null-terminated vector that starts at [command[0]]. *)
Fixpoint argv_of (command : list slot) : list string :=
  match command with
  | Ptr s :: command' => s :: argv_of command'
  | _ => []
  end.

Definition ptr_of (v : slot) : option string :=
  match v with
  | Ptr s => Some s
  | _ => None
  end.

(** *** cwd *)

Definition cwd : prog unit :=
  r <- call (Getcwd 256) ;;
  match r with
  | None => call (Perror "getcwd() error")
  | Some buf =>
      call (Printf ("Current Working Directory: %s" ++ nl) [PStr buf])
  end.

(** *** main *)

(** The body of [if (child_pid == 0)]. *)
Definition child_side (command0 : string) (command : list slot)
  : prog unit :=
  if String.eqb command0 "cd"
  then
    result <- call (Chdir (ptr_of (nth 1 command Uninit))) ;;
    (if negb (result =? 0)
     then call (Perror "chdir() result")
     else Ret tt) ;;
    cwd
  else
    r <- call (Execvp (Some command0) (argv_of command)) ;;
    (if r <? 0
     then call (Perror command0) ;; stop (Exit 1)
     else Ret tt) ;;
    call (Printf ("This won't be printed if execvp is successul" ++ nl) []).

(** One turn of [while (1)] from the call of fork on, for a command whose
    first entry is [command0]. *)
Definition run_command (command0 : string) (command : list slot)
  : prog unit :=
  child_pid <- call Fork ;;
  (if child_pid <? 0
   then call (Perror "Fork failed") ;; stop (Exit 1)
   else Ret tt) ;;
  (if child_pid =? 0
   then child_side command0 command
   else call (Waitpid child_pid)).

(** One turn of [while (1)].  It ends by [continue] or by reaching the
    closing brace, both [Ret tt]; the two calls of free have no effect the
    model observes.  Where the behaviour of the C code is undefined (the
    null pointer of readline given to strtok, a store past the end of
    [command], a read of a slot never written) the model records the step
    and follows the process no further: nothing is said of what the
    process does from there. *)
Definition loop_body : prog unit :=
  input <- call (Readline "$ ") ;;
  match input with
  | None => stop (Undefined "get_input: strtok on a null input")
  | Some line =>
      match get_input line with
      | None => stop (Undefined "get_input: store past the end of command")
      | Some command =>
          match nth 0 command Uninit with
          | Uninit => stop (Undefined "main: command[0] read before written")
          | Null => Ret tt
          | Ptr command0 => run_command command0 command
          end
      end
  end.

(** [while (1)], unrolled [fuel] times; a process that comes out of
    [shell_loop] is still inside the loop. *)
Fixpoint shell_loop (fuel : nat) : prog unit :=
  match fuel with
  | O => Ret tt
  | S fuel' => loop_body ;; shell_loop fuel'
  end.

Definition main (fuel : nat) : prog unit :=
  call (Printf ("Welcome to shell" ++ nl) []) ;;
  shell_loop fuel.

End Stage1Shell.

(* ================================================================== *)
(** ** src/c/pipe.c *)
(* ================================================================== *)

Module Pipe.

Record command : Type := mkCommand { argv : list string }.

(** The body of [if ((pid = fork ()) == 0)]; [cmd] is [None] when the
    pointer is outside the array. *)
Definition child_side (in_fd out_fd : Z) (cmd : option command) : prog Z :=
  (if negb (in_fd =? 0)
   then call (Dup2 in_fd 0) ;; call (Close in_fd) ;; Ret tt
   else Ret tt) ;;
  (if negb (out_fd =? 1)
   then call (Dup2 out_fd 1) ;; call (Close out_fd) ;; Ret tt
   else Ret tt) ;;
  match cmd with
  | Some c => call (Execvp (hd_error (argv c)) (argv c))
  | None => stop (Undefined "spawn_proc: cmd outside the array")
  end.

Definition spawn_proc (in_fd out_fd : Z) (cmd : option command) : prog Z :=
  call (Printf ("set_stdin_to: %d, set_stdout_to: %d" ++ nl)
               [PInt in_fd; PInt out_fd]) ;;
  pid <- call Fork ;;
  if pid =? 0
  then child_side in_fd out_fd cmd
  else Ret pid.

Definition cmd_at (cmd : list command) (i : Z) : option command :=
  if i <? 0 then None else nth_error cmd (Z.to_nat i).

(** The for loop with [count] turns left; it returns [i] and [in]. *)
Fixpoint fork_pipes_loop (count : nat) (cmd : list command)
    (i in_fd : Z) (fd : Z * Z) : prog (Z * Z) :=
  match count with
  | O => Ret (i, in_fd)
  | S count' =>
      r <- call Pipe ;;
      let fd := match r with Some fd' => fd' | None => fd end in
      call (Printf ("pipe results: (%d %d)" ++ nl)
                   [PInt (fst fd); PInt (snd fd)]) ;;
      spawn_proc in_fd (snd fd) (cmd_at cmd i) ;;
      call (Close (snd fd)) ;;
      fork_pipes_loop count' cmd (i + 1) (fst fd) fd
  end.

(** [fd0] is what the array [fd] holds before the first call of pipe. *)
Definition fork_pipes (fd0 : Z * Z) (n : Z) (cmd : list command) : prog Z :=
  st <- fork_pipes_loop (Z.to_nat (n - 1)) cmd 0 0 fd0 ;;
  let '(i, in_fd) := st in
  (if negb (in_fd =? 0) then call (Dup2 in_fd 0) ;; Ret tt else Ret tt) ;;
  match cmd_at cmd i with
  | Some c => call (Execvp (hd_error (argv c)) (argv c))
  | None => stop (Undefined "fork_pipes: cmd[i] outside the array")
  end.

Definition ls : command := mkCommand ["ls"; "-la"].
Definition awk : command := mkCommand ["awk"; "{print $9}"].
Definition sort : command := mkCommand ["sort"].
Definition uniq : command := mkCommand ["uniq"].

Definition main (fd0 : Z * Z) : prog Z :=
  fork_pipes fd0 4 [ls; awk; sort; uniq].

End Pipe.

(* ================================================================== *)
(** ** src/c/cd.c *)
(* ================================================================== *)

Module Cd.

Definition cwd : prog unit :=
  r <- call (Getcwd 256) ;;
  match r with
  | None => call (Perror "getcwd() error")
  | Some buf =>
      call (Printf ("Current Working Directory: %s" ++ nl) [PStr buf])
  end.

(** [argc] is the length of [argv], as the C start-up code passes it. *)
Definition main (argv : list string) : prog Z :=
  let argc := Z.of_nat (List.length argv) in
  if negb (argc =? 2)
  then call (Printf "invalid args" []) ;; Ret 1
  else
    result <- call (Chdir (nth_error argv 1)) ;;
    (if negb (result =? 0)
     then call (Perror "chdir() result")
     else Ret tt) ;;
    cwd ;;
    Ret 0.

End Cd.

(* ================================================================== *)
(** ** Whitespace-separated tokens *)
(* ================================================================== *)

Definition cons_opt (h : option string) (ws : list string) : list string :=
  match h with
  | Some t => t :: ws
  | None => ws
  end.

(** The token that starts at the first character, if that character is not
    a separator, and the tokens after it. *)
Fixpoint words_aux (separator s : string) : option string * list string :=
  match s with
  | EmptyString => (None, [])
  | String c s' =>
      let '(h, ws) := words_aux separator s' in
      if Stage1Shell.is_delim separator c
      then (None, cons_opt h ws)
      else (Some (String c (match h with Some t => t | None => EmptyString end)),
            ws)
  end.

(** The tokens of a line: its maximal runs of characters that are not
    separators. *)
Definition words (separator s : string) : list string :=
  cons_opt (fst (words_aux separator s)) (snd (words_aux separator s)).

(** The entries of the array a token list is stored as, numbered from
    [i]. *)
Fixpoint number_from (i : Z) (l : list slot) : list (Z * slot) :=
  match l with
  | [] => []
  | v :: l' => (i, v) :: number_from (i + 1) l'
  end.

Fixpoint all_chars (f : ascii -> bool) (s : string) : bool :=
  match s with
  | EmptyString => true
  | String c s' => f c && all_chars f s'
  end.

(** The line is empty or made of space characters only. *)
Definition blank (line : string) : bool :=
  all_chars (fun c => Ascii.eqb c " "%char) line.

(* ================================================================== *)
(** ** Reading the log *)
(* ================================================================== *)

Definition is_wait (e : event) : bool :=
  match e with
  | EWaitpid _ => true
  | EBlocked _ => true
  | _ => false
  end.

(** The calls of process [n], in order. *)
Definition calls_of (n : Z) (l : list (proc * event)) : list event :=
  map snd (filter (fun x => pid (fst x) =? n) l).

(** A stage that became its program: who ran it, the argument vector, and
    what its descriptors 0 and 1 referred to at the call of execvp. *)
Record stage_run : Type := mkStage {
  stage_pid : Z;
  stage_argv : list string;
  stage_in : option fobj;
  stage_out : option fobj
}.

Fixpoint stage_runs (l : list (proc * event)) : list stage_run :=
  match l with
  | [] => []
  | (p, EExecvp _ argv None) :: l' =>
      mkStage (pid p) argv (fd_get (fds p) 0) (fd_get (fds p) 1)
      :: stage_runs l'
  | _ :: l' => stage_runs l'
  end.

(** The children process [n] created. *)
Fixpoint children_of (n : Z) (l : list (proc * event)) : list Z :=
  match l with
  | [] => []
  | (p, EFork c) :: l' =>
      if (pid p =? n) && (0 <? c) then c :: children_of n l'
      else children_of n l'
  | _ :: l' => children_of n l'
  end.

(** Process [n] waited for child [c]. *)
Definition waited_for (n c : Z) (l : list (proc * event)) : bool :=
  existsb (fun x => (pid (fst x) =? n) &&
                    match snd x with
                    | EWaitpid c' => c' =? c
                    | _ => false
                    end) l.

(** Process [n] waited for every child it created. *)
Definition waits_for_all_children (n : Z) (l : list (proc * event)) : bool :=
  forallb (fun c => waited_for n c l) (children_of n l).

(** The descriptor table of process [n] at each of its calls of execvp,
    and the descriptors it held open there. *)
Definition fds_at_exec (n : Z) (l : list (proc * event)) : list fdtable :=
  map (fun x => fds (fst x))
      (filter (fun x => (pid (fst x) =? n) &&
                        match snd x with
                        | EExecvp _ _ _ => true
                        | _ => false
                        end) l).

Definition open_at_exec (n : Z) (l : list (proc * event)) : list (list Z) :=
  map open_fds (fds_at_exec n l).

(** Every call of waitpid logged on [w'] was logged on [w] already. *)
Definition no_new_wait (w w' : world) : Prop :=
  forall x, In x (log w') -> In x (log w) \/ is_wait (snd x) = false.

(** Between [w] and [w'] pids were only handed out, and every call logged
    was made by a process with another pid than [p], or by [p] in that very
    state. *)
Definition kept_state (p : proc) (w w' : world) : Prop :=
  (next_pid w <= next_pid w')%positive /\
  forall x, In x (log w') ->
    In x (log w) \/ pid (fst x) <> pid p \/ fst x = p.

(** Every process that made a call got its pid before the next one the
    kernel will hand out. *)
Definition fresh_pids (w : world) : Prop :=
  forall x, In x (log w) -> pid (fst x) < Z.pos (next_pid w).

(** Some process read the line [s] from the terminal. *)
Definition line_read (s : string) (l : list (proc * event)) : Prop :=
  exists p prompt, In (p, EReadline prompt (Some s)) l.

(** Where a cd command with arguments [args] leaves the process that runs
    it. *)
Definition cd_target (os : os_model) (p : proc) (args : list string)
  : string :=
  match args with
  | d :: _ =>
      match chdir_os os (dir p) d with
      | Some d' => d'
      | None => dir p
      end
  | [] => dir p
  end.

(** getcwd can name the directory of [q] in a buffer of 256 bytes. *)
Definition cwd_named (os : os_model) (q : proc) : bool :=
  negb (getcwd_fails os (dir q) || (256 <? S (String.length (dir q)))%nat).

(** The machine after process [q] ran [cwd]: it asked for its directory and
    printed it, or the diagnostic when the directory could not be named. *)
Definition after_cwd (q : proc) (named : bool) (w : world) : world :=
  if named
  then emit q (EPrintf ("Current Working Directory: %s" ++ nl) [PStr (dir q)])
         (emit q (EGetcwd 256 (Some (dir q))) w)
  else emit q (EPerror "getcwd() error") (emit q (EGetcwd 256 None) w).

Definition sys_is_wait {X : Type} (e : sys X) : bool :=
  match e with
  | Waitpid _ => true
  | _ => false
  end.

(** A program with no call of waitpid in it. *)
Inductive never_waits {R : Type} : prog R -> Prop :=
| never_waits_ret (r : R) : never_waits (Ret r)
| never_waits_vis (X : Type) (e : sys X) (k : X -> prog R) :
    sys_is_wait e = false ->
    (forall x, never_waits (k x)) ->
    never_waits (Vis e k).

(** The program of stage [c] resolves from directory [d]: the stage has a
    program name and execvp finds it. *)
Definition resolves (os : os_model) (d : string) (c : Pipe.command) : Prop :=
  match Pipe.argv c with
  | f :: _ => exec_ok os d f = true
  | [] => False
  end.

(** Stage [j] of a pipeline of [n] stages started by process [p] on machine
    [w], as the pipeline is meant to run: the stages before the last in
    children created one after the other, the last in [p] itself; stage 0
    reads what [p] had as descriptor 0, stage [j] the pipe of stage [j-1];
    the last stage writes what [p] had as descriptor 1, the others a pipe
    of their own. *)
Definition pipeline_stage (p : proc) (w : world) (cmd : list Pipe.command)
    (n j : nat) : stage_run :=
  mkStage
    (if (S j <? n)%nat then Z.pos (next_pid w) + Z.of_nat j else pid p)
    (Pipe.argv (nth j cmd (Pipe.mkCommand [])))
    (match j with
     | O => fd_get (fds p) 0
     | S j' => Some (PipeR (next_pipe w + j'))
     end)
    (if (S j <? n)%nat then Some (PipeW (next_pipe w + j))
     else fd_get (fds p) 1).

(* ================================================================== *)
(** ** Example hosts and machines *)
(* ================================================================== *)

(** A host where nothing fails. *)
Definition host_ok : os_model :=
  mkOs (fun _ => false) (fun _ => false) (fun _ _ => true)
       (fun _ d => Some d) (fun _ => false).

(** A host with no program called nosuch and no directory called
    /nonexistent. *)
Definition host_missing : os_model :=
  mkOs (fun _ => false) (fun _ => false)
       (fun _ f => negb (String.eqb f "nosuch"))
       (fun _ d => if String.eqb d "/nonexistent" then None else Some d)
       (fun _ => false).

(** A host with no program called awk. *)
Definition host_no_awk : os_model :=
  mkOs (fun _ => false) (fun _ => false)
       (fun _ f => negb (String.eqb f "awk"))
       (fun _ d => Some d) (fun _ => false).

(** A host whose process table is full. *)
Definition host_full : os_model :=
  mkOs (fun _ => true) (fun _ => false) (fun _ _ => true)
       (fun _ d => Some d) (fun _ => false).

(** A host on which execvp finds no program. *)
Definition host_bare : os_model :=
  mkOs (fun _ => false) (fun _ => false) (fun _ _ => false)
       (fun _ d => Some d) (fun _ => false).

(** A process started from a terminal, in /home, with pid 100. *)
Definition proc0 : proc :=
  mkProc 100 [Some Stdin0; Some Stdout0; Some Stderr0] "/home".

(** The machine when that process starts, with [lines] typed ahead. *)
Definition boot (lines : list string) : world :=
  mkWorld lines 101 0 0 0 [].

(* ================================================================== *)
(** ** Tokens and lines *)
(* ================================================================== *)

(** A token as an argument vector wants it: not empty, no space in it. *)
Definition clean_token (t : string) : bool :=
  negb (String.eqb t EmptyString) &&
  all_chars (fun c => negb (Ascii.eqb c " "%char)) t.

(** The tokens, one space between two of them. *)
Fixpoint join_tokens (ts : list string) : string :=
  match ts with
  | [] => EmptyString
  | [t] => t
  | t :: ts' => (t ++ " " ++ join_tokens ts')%string
  end.

(* ================================================================== *)
(** ** The calls a program can reach *)
(* ================================================================== *)

(** What a call can return to its caller: execvp returns only to report a
    failure. *)
Definition can_return {X : Type} (e : sys X) : X -> Prop :=
  match e in sys X return X -> Prop with
  | Execvp _ _ => fun x => x = -1
  | _ => fun _ => True
  end.

(** Every call the program can reach satisfies [okc] and every value it can
    return satisfies [okr]. *)
Inductive runs_within {R : Type} (okc : forall X, sys X -> Prop)
    (okr : R -> Prop) : prog R -> Prop :=
| runs_within_ret (r : R) : okr r -> runs_within okc okr (Ret r)
| runs_within_vis (X : Type) (e : sys X) (k : X -> prog R) :
    okc X e ->
    (forall x, can_return e x -> runs_within okc okr (k x)) ->
    runs_within okc okr (Vis e k).

(** The text the shell's child is to print when execvp returns without
    an error. *)
Definition unreachable_text : string :=
  "This won't be printed if execvp is successul" ++ nl.

Definition not_unreachable_printf (X : Type) (e : sys X) : Prop :=
  match e with
  | Printf fmt _ => fmt <> unreachable_text
  | _ => True
  end.

Definition not_unreachable_event (e : event) : Prop :=
  match e with
  | EPrintf fmt _ => fmt <> unreachable_text
  | _ => True
  end.

Definition exits_with_1 (X : Type) (e : sys X) : Prop :=
  match e with
  | Exit code => code = 1
  | _ => True
  end.

Definition exit_event_1 (e : event) : Prop :=
  match e with
  | EExit code => code = 1
  | _ => True
  end.

Definition any_call (X : Type) (e : sys X) : Prop := True.

(** Neither perror nor exit. *)
Definition silent_call (X : Type) (e : sys X) : Prop :=
  match e with
  | Perror _ => False
  | Exit _ => False
  | _ => True
  end.

Definition silent_event (e : event) : Prop :=
  match e with
  | EPerror _ => False
  | EExit _ => False
  | _ => True
  end.

(** Every entry of the log of [w'] was in the log of [w] already or is a
    call that satisfies [ok]. *)
Definition only_new (ok : event -> Prop) (w w' : world) : Prop :=
  forall x, In x (log w') -> In x (log w) \/ ok (snd x).

(* ================================================================== *)
(** ** A turn of the shell *)
(* ================================================================== *)

(** The machine after process [q] ran the cd branch on arguments [args]:
    chdir on the first argument, or on the null pointer when there is none,
    the diagnostic when chdir failed, then [cwd] in the directory the
    process is in by then. *)
Definition after_cd (os : os_model) (q : proc) (args : list string)
    (w : world) : world :=
  let q' := set_dir q (cd_target os q args) in
  match args with
  | d :: _ =>
      match chdir_os os (dir q) d with
      | Some _ =>
          after_cwd q' (cwd_named os q') (emit q (EChdir (Some d) 0) w)
      | None =>
          after_cwd q' (cwd_named os q')
            (emit q (EPerror "chdir() result")
               (emit q (EChdir (Some d) (-1)) w))
      end
  | [] =>
      after_cwd q' (cwd_named os q')
        (emit q (EPerror "chdir() result") (emit q (EChdir None (-1)) w))
  end.

(** Process [c] has exited or become another program. *)
Definition has_ended (c : Z) (l : list (proc * event)) : bool :=
  existsb (fun x => (pid (fst x) =? c) &&
                    match snd x with
                    | EExit _ => true
                    | EExecvp _ _ None => true
                    | _ => false
                    end) l.

(** No process took a step whose behaviour is undefined. *)
Definition all_defined (l : list (proc * event)) : bool :=
  forallb (fun x => match snd x with
                    | EUndefined _ => false
                    | _ => true
                    end) l.

(** The machine after the shell [p] read [line] and created the child that
    is to run it. *)
Definition after_fork (p : proc) (line : string) (rest : list string)
    (w : world) : world :=
  emit p (EFork (Z.pos (next_pid w)))
    (new_pid (count_fork
       (emit p (EReadline "$ " (Some line)) (set_input w rest)))).

(* ================================================================== *)
(** ** Descriptor tables of the stages *)
(* ================================================================== *)

(** The processes that became a program, each as it was at its call of
    execvp, in the order of the calls. *)
Fixpoint became (l : list (proc * event)) : list proc :=
  match l with
  | [] => []
  | (p, EExecvp _ _ None) :: l' => p :: became l'
  | _ :: l' => became l'
  end.

(** The table has [o] open as some descriptor. *)
Definition holds (t : fdtable) (o : fobj) : Prop :=
  exists k, fd_get t k = Some o.

(** Descriptor [k] of a child of [spawn_proc] at its call of execvp, the
    child having started with table [t]. *)
Definition child_fd (t : fdtable) (m out : nat) (cur wobj : fobj) (k : nat)
  : option fobj :=
  if (k =? 1)%nat then Some wobj
  else if (k =? out)%nat then None
  else if (k =? 0)%nat then Some cur
  else if (k =? m)%nat then None
  else fd_get t k.

(** What the loop of [fork_pipes], entered by process [p] on machine [w],
    leaves to the child [q] of its turn [j]. *)
Definition spawned_stage (p : proc) (w : world) (j : nat) (q : proc) : Prop :=
  pid q = Z.pos (next_pid w) + Z.of_nat j /\
  (forall k o, k <> 0%nat -> k <> 1%nat ->
     fd_get (fds p) k = Some o -> holds (fds q) o) /\
  (forall i, (i <= j)%nat -> holds (fds q) (PipeR (next_pipe w + i))) /\
  (forall k x, fd_get (fds q) k = Some (PipeW x) ->
     (k = 1%nat /\ x = (next_pipe w + j)%nat) \/
     (k <> 1%nat /\ holds (fds p) (PipeW x))).

(** What [fork_pipes], called by process [p] on machine [w] for [n]
    stages, leaves to the process [q] that becomes stage [j]: the read end
    of every pipe made up to its turn, and no write end that [p] did not
    hold but the one of its own pipe, as descriptor 1. *)
Definition stage_tables (p : proc) (w : world) (n j : nat) (q : proc)
  : Prop :=
  pid q = (if (S j <? n)%nat then Z.pos (next_pid w) + Z.of_nat j
           else pid p) /\
  (forall i, (i <= j)%nat -> (i < n - 1)%nat ->
     holds (fds q) (PipeR (next_pipe w + i))) /\
  (forall k x, fd_get (fds q) k = Some (PipeW x) ->
     (k = 1%nat /\ x = (next_pipe w + j)%nat /\ (S j < n)%nat) \/
     holds (fds p) (PipeW x)).

(* ================================================================== *)
(** ** Descriptor tables: lemmas *)
(* ================================================================== *)

Lemma fd_get_put_eq (t : fdtable) (n : nat) (v : option fobj) :
  fd_get (fd_put t n v) n = v.
Proof.
  unfold fd_get. revert t.
  induction n as [|n IH]; intros [|x t]; simpl; auto.
Qed.

Lemma fd_get_put_ne (t : fdtable) (n m : nat) (v : option fobj) :
  n <> m -> fd_get (fd_put t n v) m = fd_get t m.
Proof.
  unfold fd_get. revert t m.
  induction n as [|n IH]; intros [|x t] [|m] Hne; simpl; try congruence.
  - destruct m; reflexivity.
  - rewrite IH by congruence. destruct m; reflexivity.
  - apply IH. congruence.
Qed.

Lemma fd_alloc_free (t : fdtable) : fd_get t (fd_alloc t) = None.
Proof.
  unfold fd_get.
  induction t as [|[o|] t IH]; simpl; auto.
Qed.

Lemma fd_alloc_not_open (t : fdtable) (n : nat) (o : fobj) :
  fd_get t n = Some o -> fd_alloc t <> n.
Proof.
  intros H E. subst n. rewrite fd_alloc_free in H. discriminate.
Qed.

(* ================================================================== *)
(** ** The tokenizer: lemmas *)
(* ================================================================== *)

Section Tokens.

Variable separator : string.

Lemma words_cons (c : ascii) (s : string) :
  words separator (String c s) =
  if Stage1Shell.is_delim separator c then words separator s
  else match fst (words_aux separator s) with
       | Some t => String c t :: snd (words_aux separator s)
       | None => String c EmptyString :: snd (words_aux separator s)
       end.
Proof.
  unfold words. simpl.
  destruct (words_aux separator s) as [h ws].
  destruct (Stage1Shell.is_delim separator c); simpl; [reflexivity|].
  destruct h; reflexivity.
Qed.

Lemma skip_delims_words (s : string) :
  words separator (Stage1Shell.skip_delims separator s) = words separator s.
Proof.
  induction s as [|c s IH]; [reflexivity|].
  rewrite words_cons. simpl.
  destruct (Stage1Shell.is_delim separator c) eqn:E; [exact IH|].
  rewrite words_cons. rewrite E. reflexivity.
Qed.

Lemma skip_delims_length (s : string) :
  (String.length (Stage1Shell.skip_delims separator s) <= String.length s)%nat.
Proof.
  induction s as [|c s IH]; simpl; [lia|].
  destruct (Stage1Shell.is_delim separator c); simpl; lia.
Qed.

Lemma skip_delims_head (s : string) (c : ascii) (s' : string) :
  Stage1Shell.skip_delims separator s = String c s' ->
  Stage1Shell.is_delim separator c = false.
Proof.
  induction s as [|d s IH]; simpl; [discriminate|].
  destruct (Stage1Shell.is_delim separator d) eqn:E; [exact IH|].
  intros H. injection H as -> _. exact E.
Qed.

(** A scan that starts on a character of a token yields that token, and
    resumes on a strictly shorter text that holds the other tokens. *)
Lemma scan_token_words (s : string) :
  match s with
  | EmptyString => True
  | String c s' =>
      if Stage1Shell.is_delim separator c
      then words_aux separator s = (None, words separator s')
      else words_aux separator s =
             (Some (fst (Stage1Shell.scan_token separator s)),
              words separator (snd (Stage1Shell.scan_token separator s)))
           /\ (String.length (snd (Stage1Shell.scan_token separator s))
               < String.length s)%nat
  end.
Proof.
  induction s as [|c s IH]; [exact I|].
  cbn [words_aux Stage1Shell.scan_token].
  destruct (Stage1Shell.is_delim separator c) eqn:E.
  - unfold words. destruct (words_aux separator s); reflexivity.
  - destruct s as [|d s'].
    + simpl. split; [reflexivity|lia].
    + cbv beta match in IH.
      destruct (Stage1Shell.is_delim separator d) eqn:Ed.
      * rewrite IH. cbn [Stage1Shell.scan_token]. rewrite Ed.
        simpl. split; [reflexivity|lia].
      * destruct IH as [IH Hlen]. rewrite IH.
        destruct (Stage1Shell.scan_token separator (String d s')) as [t r].
        simpl in *. split; [reflexivity|lia].
Qed.

(** strtok returns the first token of the text and leaves the others. *)
Lemma strtok_words (s : string) :
  match Stage1Shell.strtok s separator with
  | (None, _) => words separator s = []
  | (Some t, r) => words separator s = t :: words separator r
                   /\ (String.length r < String.length s)%nat
  end.
Proof.
  unfold Stage1Shell.strtok.
  pose proof (skip_delims_words s) as Hw.
  pose proof (skip_delims_length s) as Hl.
  destruct (Stage1Shell.skip_delims separator s) as [|c s'] eqn:Es.
  - rewrite <- Hw. reflexivity.
  - pose proof (skip_delims_head _ _ _ Es) as Hc.
    pose proof (scan_token_words (String c s')) as Hs.
    cbv beta match in Hs. rewrite Hc in Hs. destruct Hs as [Hs Hlen].
    destruct (Stage1Shell.scan_token separator (String c s')) as [t r] eqn:Et.
    cbn [fst snd] in Hs, Hlen. rewrite <- Hw. unfold words. rewrite Hs.
    cbn [fst snd cons_opt]. split; [reflexivity|].
    cbn [String.length] in Hl, Hlen. lia.
Qed.

(** The loop of [get_input] has fuel enough, and stores the tokens at
    consecutive indices. *)
Lemma get_input_loop_words (fuel : nat) (parsed : option string)
    (saved : string) (index : Z) :
  (String.length saved < fuel)%nat \/ parsed = None ->
  Stage1Shell.get_input_loop fuel separator parsed saved index =
  Some (number_from index (map Ptr (cons_opt parsed (words separator saved))),
        index + Z.of_nat (List.length (cons_opt parsed (words separator saved))))
  \/ (parsed = None /\
      Stage1Shell.get_input_loop fuel separator parsed saved index =
      Some ([], index)).
Proof.
  revert parsed saved index.
  induction fuel as [|fuel IH]; intros parsed saved index H.
  - destruct parsed as [tok|]; [|right; destruct H; auto].
    destruct H as [H|H]; [lia|discriminate].
  - destruct parsed as [tok|].
    + left. destruct H as [H|H]; [|discriminate].
      cbn [Stage1Shell.get_input_loop].
      pose proof (strtok_words saved) as Hs.
      destruct (Stage1Shell.strtok saved separator) as [[t|] r].
      * destruct Hs as [Hw Hlen].
        destruct (IH (Some t) r (index + 1)) as [E|[E _]];
          [left; lia| |discriminate].
        rewrite E. rewrite Hw. cbn [cons_opt map number_from List.length].
        f_equal. f_equal. lia.
      * rewrite Hs.
        destruct fuel; cbn [Stage1Shell.get_input_loop cons_opt map
                            number_from List.length]; f_equal; f_equal; lia.
    + right. split; [reflexivity|]. destruct fuel; reflexivity.
Qed.

End Tokens.

Lemma number_from_snoc (i : Z) (l : list slot) (v : slot) :
  number_from i (l ++ [v]) =
  number_from i l ++ [(i + Z.of_nat (List.length l), v)].
Proof.
  revert i. induction l as [|x l IH]; intros i; simpl.
  - do 2 f_equal. lia.
  - rewrite IH. do 4 f_equal. lia.
Qed.

(** The stores of [get_input]: the tokens of the line at indices 0, 1, ...
    and the null entry after the last. *)
Lemma get_input_stores_words (line : string) :
  Stage1Shell.get_input_stores line =
  number_from 0 (map Ptr (words " " line)
                 ++ [Null]).
Proof.
  unfold Stage1Shell.get_input_stores.
  pose proof (strtok_words " " line) as Hs.
  destruct (Stage1Shell.strtok line " ") as [[t|] r].
  - destruct Hs as [Hw Hlen].
    destruct (get_input_loop_words " " (String.length line) (Some t) r 0)
      as [E|[E _]]; [left; exact Hlen| |discriminate].
    rewrite E, Hw. cbn [cons_opt].
    rewrite number_from_snoc, length_map. reflexivity.
  - rewrite Hs. destruct (String.length line); reflexivity.
Qed.

Lemma set_slot_middle (pre : list slot) (x v : slot) (rest : list slot) :
  Stage1Shell.set_slot (pre ++ x :: rest) (List.length pre) v =
  pre ++ v :: rest.
Proof.
  induction pre as [|y pre IH]; simpl; [reflexivity|].
  rewrite IH. reflexivity.
Qed.

Lemma in_bounds_spec (b : list slot) (i : Z) :
  Stage1Shell.in_bounds b i = true <-> 0 <= i < Z.of_nat (List.length b).
Proof.
  unfold Stage1Shell.in_bounds.
  rewrite andb_true_iff, Z.leb_le, Z.ltb_lt. tauto.
Qed.

Lemma store_middle (pre : list slot) (x v : slot) (rest : list slot) :
  Stage1Shell.store (pre ++ x :: rest) (Z.of_nat (List.length pre)) v =
  Some ((pre ++ [v]) ++ rest).
Proof.
  unfold Stage1Shell.store.
  rewrite (proj2 (in_bounds_spec _ _))
    by (rewrite length_app; simpl; lia).
  rewrite Nat2Z.id, set_slot_middle, <- app_assoc. reflexivity.
Qed.

Lemma store_end (pre : list slot) (v : slot) :
  Stage1Shell.store pre (Z.of_nat (List.length pre)) v = None.
Proof.
  unfold Stage1Shell.store.
  destruct (Stage1Shell.in_bounds pre (Z.of_nat (List.length pre))) eqn:E;
    [|reflexivity].
  apply in_bounds_spec in E. lia.
Qed.

Lemma length_snoc_Z (pre : list slot) (v : slot) :
  Z.of_nat (List.length pre) + 1 = Z.of_nat (List.length (pre ++ [v])).
Proof. rewrite length_app. simpl. lia. Qed.

(** Stores at consecutive indices fill the block from left to right as
    long as there is room. *)
Lemma run_stores_room (l pre rest : list slot) :
  (List.length l <= List.length rest)%nat ->
  Stage1Shell.run_stores (pre ++ rest)
    (number_from (Z.of_nat (List.length pre)) l) =
  Some (pre ++ l ++ skipn (List.length l) rest).
Proof.
  revert pre rest.
  induction l as [|v l IH]; intros pre rest Hlen; [reflexivity|].
  destruct rest as [|x rest]; [simpl in Hlen; lia|].
  cbn [number_from Stage1Shell.run_stores].
  rewrite store_middle, (length_snoc_Z pre v).
  rewrite IH by (simpl in Hlen; lia).
  rewrite <- app_assoc. reflexivity.
Qed.

(** One store more than there is room for runs past the end. *)
Lemma run_stores_overflow (l pre rest : list slot) :
  (List.length rest < List.length l)%nat ->
  Stage1Shell.run_stores (pre ++ rest)
    (number_from (Z.of_nat (List.length pre)) l) = None.
Proof.
  revert pre rest.
  induction l as [|v l IH]; intros pre rest Hlen; [simpl in Hlen; lia|].
  cbn [number_from Stage1Shell.run_stores].
  destruct rest as [|x rest].
  - rewrite app_nil_r, store_end. reflexivity.
  - rewrite store_middle, (length_snoc_Z pre v).
    apply IH. simpl in Hlen. lia.
Qed.

Lemma skipn_repeat_slot (x : slot) (n m : nat) :
  skipn n (repeat x m) = repeat x (m - n).
Proof.
  revert m. induction n as [|n IH]; intros [|m]; simpl; auto.
Qed.

(** The array [get_input] returns for a line of at most seven tokens. *)
Lemma get_input_words (line : string) :
  (List.length (words " " line) <= 7)%nat ->
  Stage1Shell.get_input line =
  Some (map Ptr (words " " line) ++ Null ::
        repeat Uninit (7 - List.length (words " " line))).
Proof.
  intros Hlen. unfold Stage1Shell.get_input.
  rewrite get_input_stores_words.
  pose proof (run_stores_room (map Ptr (words " " line) ++ [Null]) []
                Stage1Shell.malloc_command) as H.
  cbn [List.length app Z.of_nat] in H. rewrite H.
  - f_equal. rewrite <- app_assoc. cbn [app]. do 2 f_equal.
    rewrite length_app, length_map. cbn [List.length].
    unfold Stage1Shell.malloc_command, Stage1Shell.command_slots.
    rewrite skipn_repeat_slot. f_equal. lia.
  - rewrite length_app, length_map. cbn [List.length].
    unfold Stage1Shell.malloc_command, Stage1Shell.command_slots.
    rewrite repeat_length. lia.
Qed.

(** For a line of eight tokens or more there is no such array. *)
Lemma get_input_overflow (line : string) :
  (8 <= List.length (words " " line))%nat ->
  Stage1Shell.get_input line = None.
Proof.
  intros Hlen. unfold Stage1Shell.get_input.
  rewrite get_input_stores_words.
  apply (run_stores_overflow (map Ptr (words " " line) ++ [Null]) []
           Stage1Shell.malloc_command).
  rewrite length_app, length_map. cbn [List.length].
  unfold Stage1Shell.malloc_command, Stage1Shell.command_slots.
  rewrite repeat_length. lia.
Qed.

Lemma argv_of_words (ws : list string) (rest : list slot) :
  Stage1Shell.argv_of (map Ptr ws ++ Null :: rest) = ws.
Proof.
  induction ws as [|w ws IH]; simpl; [reflexivity|].
  rewrite IH. reflexivity.
Qed.

(** A line has no token exactly when it is blank. *)
Lemma words_blank (line : string) :
  words " " line = [] <-> blank line = true.
Proof.
  unfold blank.
  induction line as [|c line IH]; [simpl; tauto|].
  rewrite words_cons. cbn [Stage1Shell.is_delim all_chars].
  rewrite orb_false_r.
  destruct (Ascii.eqb c " ") eqn:E; simpl; [exact IH|].
  split; [|discriminate].
  destruct (fst (words_aux " " line)); discriminate.
Qed.

(** A tab is not a separator: a line that holds one is a command. *)
Lemma tab_is_a_token :
  words " " (String (ascii_of_nat 9) EmptyString) =
  [String (ascii_of_nat 9) EmptyString].
Proof. reflexivity. Qed.

Lemma get_input_tokens (line command0 : string) (args : list string) :
  words " " line = command0 :: args ->
  (List.length args <= 6)%nat ->
  exists junk,
    Stage1Shell.get_input line =
    Some (Ptr command0 :: map Ptr args ++ Null :: junk).
Proof.
  intros Hw Hlen. rewrite get_input_words; rewrite Hw; simpl; [|lia].
  eexists. reflexivity.
Qed.

(* ================================================================== *)
(** ** Running programs: lemmas *)
(* ================================================================== *)

Lemma in_log_emit (x : proc * event) (q : proc) (e : event) (w : world) :
  In x (log (emit q e w)) <-> In x (log w) \/ x = (q, e).
Proof.
  cbn [emit log]. rewrite in_app_iff. simpl. intuition congruence.
Qed.

Ltac log_cases :=
  repeat match goal with
         | H : _ \/ _ |- _ => destruct H as [H|H]
         end.

Section Run.

Variable os : os_model.

Lemma run_outs_nil {X R : Type}
    (step : X -> proc -> world -> list (proc * R) * world) (w : world) :
  run_outs step [] w = ([], w).
Proof. reflexivity. Qed.

Lemma run_outs_one {X R : Type}
    (step : X -> proc -> world -> list (proc * R) * world)
    (x : X) (q : proc) (w : world) :
  run_outs step [(x, q)] w = step x q w.
Proof.
  unfold run_outs. simpl. destruct (step x q w). reflexivity.
Qed.

Lemma run_outs_two {X R : Type}
    (step : X -> proc -> world -> list (proc * R) * world)
    (x1 x2 : X) (q1 q2 : proc) (w : world) :
  run_outs step [(x1, q1); (x2, q2)] w =
  (fst (step x1 q1 w) ++ fst (step x2 q2 (snd (step x1 q1 w))),
   snd (step x2 q2 (snd (step x1 q1 w)))).
Proof.
  unfold run_outs. simpl. destruct (step x1 q1 w) as [l1 w1]. simpl.
  destruct (step x2 q2 w1). reflexivity.
Qed.

Lemma interp_ret {R : Type} (r : R) (q : proc) (w : world) :
  interp os (Ret r) q w = ([(q, r)], w).
Proof. reflexivity. Qed.

Lemma interp_vis {X R : Type} (e : sys X) (k : X -> prog R)
    (p : proc) (w : world) :
  interp os (Vis e k) p w =
  run_outs (fun x => interp os (k x))
           (fst (handle os e p w)) (snd (handle os e p w)).
Proof. reflexivity. Qed.

Lemma interp_call {X R : Type} (e : sys X) (f : X -> prog R)
    (p : proc) (w : world) :
  interp os (x <- call e ;; f x) p w =
  run_outs (fun x => interp os (f x))
           (fst (handle os e p w)) (snd (handle os e p w)).
Proof. reflexivity. Qed.

(** [cwd] makes two calls and leaves the process as it was. *)
Lemma interp_cwd (q : proc) (w : world) :
  interp os Stage1Shell.cwd q w =
  ([(q, tt)], after_cwd q (cwd_named os q) w).
Proof.
  unfold Stage1Shell.cwd, after_cwd, cwd_named. rewrite interp_call.
  cbn [handle fst snd]. rewrite run_outs_one.
  destruct (getcwd_fails os (dir q) || (256 <? S (String.length (dir q)))%nat);
    unfold call; rewrite interp_vis; cbn [handle fst snd];
    rewrite run_outs_one; reflexivity.
Qed.

Lemma in_log_after_cwd (x : proc * event) (q : proc) (named : bool)
    (w : world) :
  In x (log (after_cwd q named w)) ->
  In x (log w) \/ (fst x = q /\ is_terminal (snd x) = false).
Proof.
  unfold after_cwd. destruct named; rewrite !in_log_emit;
    intros H; log_cases; subst; auto.
Qed.

Lemma terminated_false (c : Z) (l : list (proc * event)) :
  (forall x, In x l -> pid (fst x) = c -> is_terminal (snd x) = false) ->
  terminated c l = false.
Proof.
  intros H. unfold terminated.
  destruct (existsb _ l) eqn:E; [|reflexivity].
  apply existsb_exists in E. destruct E as (x & Hx & Hc).
  apply andb_true_iff in Hc. destruct Hc as [Hc Ht].
  apply Z.eqb_eq in Hc. rewrite (H x Hx Hc) in Ht. discriminate.
Qed.

Lemma terminated_emit (c : Z) (q : proc) (e : event) (w : world) :
  terminated c (log (emit q e w)) =
  terminated c (log w) || ((pid q =? c) && is_terminal e).
Proof.
  unfold terminated. cbn [log emit]. rewrite existsb_app.
  cbn [existsb fst snd]. rewrite orb_false_r. reflexivity.
Qed.

(** The child's side of a cd command: the child comes out of it alive, in
    the directory cd leads to, and every call in between is the child's
    and is not its last. *)
Lemma child_side_cd (q : proc) (w : world) (args : list string)
    (junk : list slot) :
  exists w',
    interp os (Stage1Shell.child_side "cd"
                 (Ptr "cd" :: map Ptr args ++ Null :: junk)) q w =
    ([(set_dir q (cd_target os q args), tt)], w') /\
    (forall x, In x (log w') ->
       In x (log w) \/ (pid (fst x) = pid q /\ is_terminal (snd x) = false)).
Proof.
  unfold Stage1Shell.child_side.
  change (String.eqb "cd" "cd") with true. cbv match.
  rewrite interp_call.
  assert (Hp : Stage1Shell.ptr_of
                 (nth 1 (Ptr "cd" :: map Ptr args ++ Null :: junk) Uninit)
               = hd_error args)
    by (destruct args; reflexivity).
  rewrite Hp. unfold cd_target.
  assert (Hfail : forall path,
    exists w',
      run_outs
        (fun x : Z =>
           interp os
             ((if negb (x =? 0) then call (Perror "chdir() result")
               else Ret tt);; Stage1Shell.cwd))
        [(-1, q)] (emit q (EChdir path (-1)) w) =
      ([(set_dir q (dir q), tt)], w') /\
      (forall x, In x (log w') ->
         In x (log w) \/
         (pid (fst x) = pid q /\ is_terminal (snd x) = false))).
  { intros path. rewrite run_outs_one.
    change (negb (-1 =? 0)) with true. cbv match.
    rewrite interp_call. cbn [handle fst snd]. rewrite run_outs_one.
    rewrite interp_cwd. eexists. split; [destruct q; reflexivity|].
    intros x Hx. apply in_log_after_cwd in Hx.
    destruct Hx as [Hx|[-> Hx]]; [|auto]. rewrite !in_log_emit in Hx.
    log_cases; subst; cbn; auto. }
  destruct args as [|d args]; cbn [handle hd_error fst snd].
  - apply Hfail.
  - destruct (chdir_os os (dir q) d) as [d'|]; cbn [fst snd].
    + rewrite run_outs_one.
      change (negb (0 =? 0)) with false. cbv match. cbn [bind].
      rewrite interp_cwd. eexists. split; [reflexivity|].
      intros x Hx. apply in_log_after_cwd in Hx.
      destruct Hx as [Hx|[-> Hx]]; [|auto]. rewrite !in_log_emit in Hx.
      log_cases; subst; cbn; auto.
    + apply Hfail.
Qed.

Lemma kept_state_refl (p : proc) (w : world) : kept_state p w w.
Proof. split; [lia|]. intros x Hx. left. exact Hx. Qed.

Lemma kept_state_trans (p : proc) (w1 w2 w3 : world) :
  kept_state p w1 w2 -> kept_state p w2 w3 -> kept_state p w1 w3.
Proof.
  intros [Hn12 H12] [Hn23 H23]. split; [lia|].
  intros x Hx. destruct (H23 x Hx) as [H|H]; [|right; exact H].
  exact (H12 x H).
Qed.

(** One call of a process other than [p]: the call is logged under the
    caller's pid, and whoever receives a result is the caller or a new
    process. *)
Lemma handle_other {X : Type} (e : sys X) (p q : proc) (w : world) :
  pid q <> pid p ->
  pid p < Z.pos (next_pid w) ->
  kept_state p w (snd (handle os e q w)) /\
  Forall (fun o => pid (snd o) <> pid p) (fst (handle os e q w)).
Proof.
  intros Hq Hp.
  destruct e; cbn [handle];
    repeat match goal with
           | |- context [match ?c with _ => _ end] => destruct c
           end;
    cbn [fst snd]; (split; [split|]);
    try (cbn [next_pid emit set_input count_fork count_pipe new_pid new_pipe];
         lia);
    try (intros x Hx; rewrite in_log_emit in Hx;
         destruct Hx as [Hx| ->]; [left; exact Hx|right; left; exact Hq]);
    repeat constructor; cbn [snd pid set_pid set_dir set_fds]; try exact Hq;
    lia.
Qed.

Lemma run_outs_other {X R : Type} (p : proc)
    (step : X -> proc -> world -> list (proc * R) * world)
    (outs : list (X * proc)) (w : world) :
  (forall x q w0, pid q <> pid p -> pid p < Z.pos (next_pid w0) ->
     kept_state p w0 (snd (step x q w0)) /\
     Forall (fun y => pid (fst y) <> pid p) (fst (step x q w0))) ->
  Forall (fun o => pid (snd o) <> pid p) outs ->
  pid p < Z.pos (next_pid w) ->
  kept_state p w (snd (run_outs step outs w)) /\
  Forall (fun y => pid (fst y) <> pid p) (fst (run_outs step outs w)).
Proof.
  intros Hstep. unfold run_outs.
  assert (G : forall acc : list (proc * R),
    Forall (fun y => pid (fst y) <> pid p) acc ->
    Forall (fun o => pid (snd o) <> pid p) outs ->
    pid p < Z.pos (next_pid w) ->
    kept_state p w
      (snd (fold_left
              (fun (acc : list (proc * R) * world) (o : X * proc) =>
                 let '(l, w') := step (fst o) (snd o) (snd acc) in
                 (fst acc ++ l, w')) outs (acc, w))) /\
    Forall (fun y => pid (fst y) <> pid p)
      (fst (fold_left
              (fun (acc : list (proc * R) * world) (o : X * proc) =>
                 let '(l, w') := step (fst o) (snd o) (snd acc) in
                 (fst acc ++ l, w')) outs (acc, w)))).
  { revert w. induction outs as [|[x q] outs IH]; intros w acc Hacc Houts Hp;
      cbn [fold_left].
    - split; [apply kept_state_refl|exact Hacc].
    - cbn [fst snd]. inversion Houts as [|o os0 Ho Hos]; subst.
      destruct (Hstep x q w Ho Hp) as [Hk Hl].
      destruct (step x q w) as [l w1]. cbn [fst snd] in Hk, Hl.
      destruct (IH w1 (acc ++ l)) as [Hk' Hl'].
      + apply Forall_app. split; assumption.
      + exact Hos.
      + destruct Hk as [Hn _]. lia.
      + split; [eapply kept_state_trans; eassumption|exact Hl']. }
  intros Houts Hp. apply G; [constructor|exact Houts|exact Hp].
Qed.

(** Whatever a process other than [p] runs, [p] makes no call meanwhile
    and no process that comes out of it has the pid of [p]. *)
Lemma interp_other {R : Type} (m : prog R) (p : proc) :
  forall q w,
  pid q <> pid p ->
  pid p < Z.pos (next_pid w) ->
  kept_state p w (snd (interp os m q w)) /\
  Forall (fun y => pid (fst y) <> pid p) (fst (interp os m q w)).
Proof.
  induction m as [r|X e k IH]; intros q w Hq Hp.
  - cbn [interp fst snd]. split; [apply kept_state_refl|].
    constructor; [exact Hq|constructor].
  - rewrite interp_vis.
    destruct (handle_other e p q w Hq Hp) as [Hk Ho].
    destruct (run_outs_other p (fun x => interp os (k x))
                (fst (handle os e q w)) (snd (handle os e q w))) as [Hk' Hl'].
    + intros x q0 w0. apply IH.
    + exact Ho.
    + destruct Hk as [Hn _]. lia.
    + split; [eapply kept_state_trans; eassumption|exact Hl'].
Qed.

Lemma kept_state_emit (p : proc) (e : event) (w w' : world) :
  kept_state p w w' -> kept_state p w (emit p e w').
Proof.
  intros [Hn H]. split; [exact Hn|].
  intros x Hx. rewrite in_log_emit in Hx.
  destruct Hx as [Hx| ->]; [exact (H x Hx)|right; right; reflexivity].
Qed.

Lemma kept_state_same_log (p : proc) (w w' w'' : world) :
  kept_state p w w' ->
  log w'' = log w' ->
  (next_pid w' <= next_pid w'')%positive ->
  kept_state p w w''.
Proof.
  intros [Hn H] Hlog Hn'. split; [lia|]. rewrite Hlog. exact H.
Qed.

(** The shell makes every call of its loop in the state it entered the
    loop in, whatever is typed and however long the loop runs; the
    processes that share the loop with it when the model stops are the
    shell itself, unchanged, and children. *)
Lemma shell_loop_keeps_state (fuel : nat) :
  forall p w,
  pid p < Z.pos (next_pid w) ->
  kept_state p w (snd (interp os (Stage1Shell.shell_loop fuel) p w)) /\
  Forall (fun y => pid (fst y) = pid p -> fst y = p)
         (fst (interp os (Stage1Shell.shell_loop fuel) p w)).
Proof.
  induction fuel as [|fuel IH]; intros p w Hp.
  - cbn [Stage1Shell.shell_loop interp fst snd].
    split; [apply kept_state_refl|]. repeat constructor.
  - cbn [Stage1Shell.shell_loop]. unfold Stage1Shell.loop_body.
    cbn [bind call]. rewrite interp_vis. cbn [handle fst snd].
    rewrite run_outs_one.
    set (w1 := emit p (EReadline "$ " (hd_error (input w)))
                 (set_input w (tl (input w)))).
    assert (H1 : kept_state p w w1).
    { apply kept_state_emit.
      apply (kept_state_same_log p w w); [apply kept_state_refl| |];
        cbn [log next_pid set_input]; [reflexivity|lia]. }
    assert (Hp1 : pid p < Z.pos (next_pid w1)) by exact Hp.
    assert (Hstop : forall why,
      kept_state p w
        (snd (interp os (bind (stop (Undefined why))
                           (fun _ : unit => Stage1Shell.shell_loop fuel))
                p w1)) /\
      Forall (fun y => pid (fst y) = pid p -> fst y = p)
        (fst (interp os (bind (stop (Undefined why))
                           (fun _ : unit => Stage1Shell.shell_loop fuel))
                p w1))).
    { intros why. cbn [bind stop]. rewrite interp_vis.
      cbn [handle fst snd]. rewrite run_outs_nil. cbn [fst snd].
      split; [apply kept_state_emit; exact H1|constructor]. }
    destruct (hd_error (input w)) as [line|]; [|apply Hstop].
    destruct (Stage1Shell.get_input line) as [command|]; [|apply Hstop].
    destruct (nth 0 command Uninit) as [| |command0]; [apply Hstop| |].
    + cbn [bind]. destruct (IH p w1 Hp1) as [Hk Hl].
      split; [eapply kept_state_trans; eassumption|exact Hl].
    + unfold Stage1Shell.run_command. cbn [bind call].
      rewrite interp_vis. cbn [handle].
      destruct (fork_fails os (nfork w1)); cbn [fst snd].
      * rewrite run_outs_one. change (-1 <? 0) with true. cbv match.
        cbn [bind call stop]. rewrite interp_vis. cbn [handle fst snd].
        rewrite run_outs_one, interp_vis. cbn [handle fst snd].
        rewrite run_outs_nil. cbn [fst snd].
        split; [|constructor].
        do 3 apply kept_state_emit.
        apply (kept_state_same_log p w w1); [exact H1|reflexivity|].
        cbn [next_pid count_fork]. lia.
      * rewrite run_outs_two. cbn [fst snd].
        set (c := Z.pos (next_pid w1)).
        set (w2 := emit p (EFork c) (new_pid (count_fork w1))).
        assert (H2 : kept_state p w w2).
        { apply kept_state_emit.
          apply (kept_state_same_log p w w1); [exact H1|reflexivity|].
          cbn [next_pid new_pid count_fork]. lia. }
        match goal with
        | |- context [interp os ?m (set_pid p c) w2] =>
            destruct (interp_other m p (set_pid p c) w2) as [Hkc Hlc]
        end.
        { cbn [pid set_pid]. unfold c. lia. }
        { unfold w2. cbn [next_pid emit new_pid count_fork]. lia. }
        match goal with
        | |- context [interp os ?m (set_pid p c) w2] =>
            set (rc := interp os m (set_pid p c) w2) in *
        end.
        assert (Hlc' : Forall (fun y : proc * unit =>
                                 pid (fst y) = pid p -> fst y = p) (fst rc)).
        { eapply Forall_impl; [|exact Hlc].
          intros y Hy Hy'. contradiction. }
        match goal with
        | |- context [interp os ?m p (snd rc)] =>
            assert (Epar : interp os m p (snd rc) =
                           if terminated c (log (snd rc))
                           then interp os (Stage1Shell.shell_loop fuel) p
                                  (emit p (EWaitpid c) (snd rc))
                           else ([], emit p (EBlocked c) (snd rc)))
        end.
        { unfold c. cbn [Z.ltb Z.eqb Z.compare bind call].
          rewrite interp_vis. cbn [handle].
          destruct (terminated (Z.pos (next_pid w1)) (log (snd rc)));
            cbn [fst snd]; [rewrite run_outs_one|rewrite run_outs_nil];
            reflexivity. }
        rewrite Epar. clear Epar.
        destruct (terminated c (log (snd rc))).
        -- destruct (IH p (emit p (EWaitpid c) (snd rc))) as [Hk Hl].
           { destruct Hkc as [Hn _]. unfold w2 in Hn.
             cbn [next_pid emit new_pid count_fork] in *. lia. }
           split.
           ++ eapply kept_state_trans; [|exact Hk].
              apply kept_state_emit.
              eapply kept_state_trans; [exact H2|exact Hkc].
           ++ apply Forall_app. split; [exact Hlc'|exact Hl].
        -- cbn [fst snd]. rewrite app_nil_r. split; [|exact Hlc'].
           apply kept_state_emit.
           eapply kept_state_trans; [exact H2|exact Hkc].
Qed.

(** A command other than cd whose program does not resolve: the child
    prints the diagnostic named after the program and exits with status 1;
    the shell alone comes out of the turn. *)
Lemma shell_exec_failure_exits (p : proc) (w : world)
    (line : string) (rest : list string)
    (command0 : string) (args : list string) :
  input w = line :: rest ->
  words " " line = command0 :: args ->
  (List.length args <= 6)%nat ->
  String.eqb command0 "cd" = false ->
  fork_fails os (nfork w) = false ->
  exec_ok os (dir p) command0 = false ->
  let c := set_pid p (Z.pos (next_pid w)) in
  interp os Stage1Shell.loop_body p w =
  ([(p, tt)],
   emit p (EWaitpid (pid c))
     (emit c (EExit 1)
        (emit c (EPerror command0)
           (emit c (EExecvp (Some command0) (command0 :: args) (Some (-1)))
              (emit p (EFork (pid c))
                 (new_pid
                    (count_fork
                       (emit p (EReadline "$ " (Some line))
                          (set_input w rest))))))))).
Proof.
  intros Hin Hw Hlen Hcd Hf He c.
  destruct (get_input_tokens _ _ _ Hw Hlen) as [junk Hg].
  unfold Stage1Shell.loop_body.
  rewrite interp_call.
  cbn [handle fst snd]. rewrite Hin. cbn [hd_error tl].
  rewrite run_outs_one, Hg. cbn [nth].
  unfold Stage1Shell.run_command. rewrite interp_call.
  cbn [handle emit set_input nfork]. rewrite Hf. cbn [fst snd].
  rewrite run_outs_two.
  cbn [next_pid Z.ltb Z.eqb Z.compare bind].
  unfold Stage1Shell.child_side. rewrite Hcd.
  change (Stage1Shell.argv_of (Ptr command0 :: map Ptr args ++ Null :: junk))
    with (command0 :: Stage1Shell.argv_of (map Ptr args ++ Null :: junk)).
  rewrite argv_of_words.
  cbn [bind call]. rewrite interp_vis. cbn [handle dir set_pid].
  rewrite He. cbn [fst snd]. rewrite run_outs_one.
  change (-1 <? 0) with true. cbv match. cbn [bind call stop].
  rewrite interp_vis. cbn [handle fst snd]. rewrite run_outs_one.
  rewrite interp_vis. cbn [handle fst snd]. rewrite run_outs_nil.
  cbn [fst snd app]. unfold call. rewrite interp_vis.
  cbn [handle]. rewrite !terminated_emit.
  cbn [pid set_pid is_terminal]. rewrite Z.eqb_refl, !orb_true_r.
  cbn [fst snd]. rewrite run_outs_one. reflexivity.
Qed.

(* ================================================================== *)
(** ** The Shell Loop *)
(* ================================================================== *)

(** C8, as the code has it.  On a line that is empty or made of space
    characters only (the space is the one separator get_input splits on)
    the tokenizer finds no token, and a turn of the loop makes no call but
    the readline that delivered the line: no process is created, nothing
    is printed, and the shell goes on with the next turn, which prompts
    again. *)
Theorem blank_line_reprompts (p : proc) (w : world)
    (line : string) (rest : list string) (fuel : nat) :
  input w = line :: rest ->
  blank line = true ->
  let w' := emit p (EReadline "$ " (Some line)) (set_input w rest) in
  words " " line = [] /\
  interp os Stage1Shell.loop_body p w = ([(p, tt)], w') /\
  nfork w' = nfork w /\
  interp os (Stage1Shell.shell_loop (S fuel)) p w =
  interp os (Stage1Shell.shell_loop fuel) p w'.
Proof.
  intros Hin Hb w'.
  assert (Hw : words " " line = []) by (apply words_blank; exact Hb).
  assert (Hg : Stage1Shell.get_input line =
               Some (Null :: repeat Uninit 7)).
  { rewrite get_input_words; rewrite Hw; simpl; [reflexivity|lia]. }
  split; [exact Hw|].
  split; [|split; [reflexivity|]].
  - unfold Stage1Shell.loop_body. rewrite interp_call.
    cbn [handle fst snd]. rewrite Hin. cbn [hd_error tl].
    rewrite run_outs_one, Hg. reflexivity.
  - cbn [Stage1Shell.shell_loop]. unfold Stage1Shell.loop_body.
    cbn [bind call]. rewrite interp_vis.
    cbn [handle fst snd]. rewrite Hin. cbn [hd_error tl].
    rewrite run_outs_one, Hg. reflexivity.
Qed.

(** C7, as the code has it.  When fork fails on a command line, the
    process that runs the loop and called fork prints the diagnostic and
    exits with status 1: however many turns its loop had left, it makes no
    further call, so it reads none of the lines after the failed one, and
    no process comes out of its loop. *)
Theorem fork_failure_exits_shell (p : proc) (w : world)
    (line : string) (rest : list string) (fuel : nat)
    (command0 : string) (args : list string) :
  input w = line :: rest ->
  words " " line = command0 :: args ->
  (List.length args <= 6)%nat ->
  fork_fails os (nfork w) = true ->
  interp os (Stage1Shell.shell_loop (S fuel)) p w =
  ([], emit p (EExit 1)
         (emit p (EPerror "Fork failed")
            (emit p (EFork (-1))
               (count_fork
                  (emit p (EReadline "$ " (Some line)) (set_input w rest)))))).
Proof.
  intros Hin Hw Hlen Hf.
  destruct (get_input_tokens _ _ _ Hw Hlen) as [junk Hg].
  cbn [Stage1Shell.shell_loop]. unfold Stage1Shell.loop_body.
  cbn [bind call]. rewrite interp_vis.
  cbn [handle fst snd]. rewrite Hin. cbn [hd_error tl].
  rewrite run_outs_one, Hg. cbn [nth].
  unfold Stage1Shell.run_command. cbn [bind call]. rewrite interp_vis.
  cbn [handle emit set_input nfork]. rewrite Hf. cbn [fst snd].
  rewrite run_outs_one.
  change (-1 <? 0) with true. cbv match. cbn [bind call stop].
  rewrite interp_vis. cbn [handle fst snd]. rewrite run_outs_one.
  rewrite interp_vis. cbn [handle fst snd]. rewrite run_outs_nil.
  reflexivity.
Qed.

(** A turn of the loop on a cd command: the child comes out of it in the
    directory cd leads to; the shell, unchanged, is blocked in waitpid. *)
Lemma cd_turn (p : proc) (w : world)
    (line : string) (rest : list string) (args : list string) :
  fresh_pids w ->
  input w = line :: rest ->
  words " " line = "cd" :: args ->
  (List.length args <= 6)%nat ->
  fork_fails os (nfork w) = false ->
  exists w',
    interp os Stage1Shell.loop_body p w =
    ([(mkProc (Z.pos (next_pid w)) (fds p) (cd_target os p args), tt)], w')
    /\ In (p, EBlocked (Z.pos (next_pid w))) (log w')
    /\ (forall q e, In (q, e) (log w') ->
          In (q, e) (log w) \/ q = p \/ pid q = Z.pos (next_pid w)).
Proof.
  intros Hfresh Hin Hw Hlen Hf.
  destruct (get_input_tokens _ _ _ Hw Hlen) as [junk Hg].
  unfold Stage1Shell.loop_body.
  rewrite interp_call.
  cbn [handle fst snd]. rewrite Hin. cbn [hd_error tl].
  rewrite run_outs_one, Hg. cbn [nth].
  unfold Stage1Shell.run_command. rewrite interp_call.
  cbn [handle emit set_input nfork]. rewrite Hf. cbn [fst snd].
  rewrite run_outs_two.
  cbn [next_pid Z.ltb Z.eqb Z.compare bind].
  match goal with
  | |- context [interp os (Stage1Shell.child_side _ _) ?q ?w0] =>
      destruct (child_side_cd q w0 args junk) as (w1 & E & Hlog)
  end.
  rewrite E. cbn [fst snd]. unfold call. rewrite interp_vis.
  cbn [handle].
  assert (Hold : forall x, In x (log w1) ->
            In x (log w) \/
            (fst x = p /\ is_terminal (snd x) = false) \/
            (pid (fst x) = Z.pos (next_pid w) /\
             is_terminal (snd x) = false)).
  { intros x Hx. apply Hlog in Hx.
    destruct Hx as [Hx|Hx]; [|right; right; exact Hx].
    repeat first [ rewrite in_log_emit in Hx
                 | progress cbn [log new_pid count_fork set_input] in Hx ].
    log_cases; subst; auto. }
  rewrite terminated_false.
  - cbn [fst snd]. rewrite run_outs_nil. cbn [fst snd app].
    eexists. split; [reflexivity|]. split.
    + apply in_log_emit. right. reflexivity.
    + intros q e Hx. rewrite in_log_emit in Hx.
      destruct Hx as [Hx|Hx]; [|injection Hx as -> _; auto].
      apply Hold in Hx. cbn [fst] in Hx. log_cases; auto.
      * destruct Hx as [-> _]. auto.
      * destruct Hx as [Hx _]. auto.
  - intros x Hx Hc. apply Hold in Hx.
    destruct Hx as [Hx|[[_ Hx]|[_ Hx]]]; try exact Hx.
    apply Hfresh in Hx. cbn [next_pid emit set_input] in Hc. exfalso. lia.
Qed.

(** C5.  A cd command typed at the shell, whatever its arguments.  In the
    turn of the loop that reads it the child comes out in the directory cd
    leads to, while the shell waits for it; every call of the turn is the
    child's or made by the shell in the state it had before.  And however
    long the loop then runs, whatever is typed, the shell makes every one
    of its calls in that same state: no cd changes its working
    directory. *)
Theorem cd_changes_child_only (p : proc) (w : world)
    (line : string) (rest : list string) (args : list string) :
  pid p < Z.pos (next_pid w) ->
  fresh_pids w ->
  input w = line :: rest ->
  words " " line = "cd" :: args ->
  (List.length args <= 6)%nat ->
  fork_fails os (nfork w) = false ->
  (exists w',
     interp os Stage1Shell.loop_body p w =
     ([(mkProc (Z.pos (next_pid w)) (fds p) (cd_target os p args), tt)], w')
     /\ In (p, EBlocked (Z.pos (next_pid w))) (log w')
     /\ (forall q e, In (q, e) (log w') ->
           In (q, e) (log w) \/ q = p \/ pid q = Z.pos (next_pid w))) /\
  (forall fuel,
     kept_state p w (snd (interp os (Stage1Shell.shell_loop fuel) p w)) /\
     Forall (fun y => pid (fst y) = pid p -> fst y = p)
            (fst (interp os (Stage1Shell.shell_loop fuel) p w))).
Proof.
  intros Hp Hfresh Hin Hw Hlen Hf. split.
  - apply (cd_turn p w line rest args Hfresh Hin Hw Hlen Hf).
  - intros fuel. apply shell_loop_keeps_state. exact Hp.
Qed.

End Run.

(** The theorem on a line of three spaces followed by the line ls. *)
Lemma blank_line_reprompts_witness :
  interp host_ok (Stage1Shell.shell_loop 2) proc0 (boot ["   "; "ls"]) =
  interp host_ok (Stage1Shell.shell_loop 1) proc0
    (emit proc0 (EReadline "$ " (Some "   ")) (boot ["ls"])).
Proof.
  apply (blank_line_reprompts host_ok proc0 (boot ["   "; "ls"])
           "   " ["ls"] 1); reflexivity.
Defined.

(** The theorem on a host whose process table is full, with two lines
    typed. *)
Lemma fork_failure_exits_shell_witness :
  interp host_full (Stage1Shell.shell_loop 5) proc0 (boot ["ls -la"; "pwd"]) =
  ([], emit proc0 (EExit 1)
         (emit proc0 (EPerror "Fork failed")
            (emit proc0 (EFork (-1))
               (count_fork
                  (emit proc0 (EReadline "$ " (Some "ls -la"))
                     (boot ["pwd"])))))).
Proof.
  apply (fork_failure_exits_shell host_full proc0 (boot ["ls -la"; "pwd"])
           "ls -la" ["pwd"] 4 "ls" ["-la"]);
    [reflexivity | reflexivity | simpl; lia | reflexivity].
Defined.

(** C7, as the claim has it, fails: on a host whose process table is full,
    with the lines ls and pwd typed, the shell is gone after the first
    line and pwd is never read. *)
Lemma fork_failure_next_line_unread :
  let r := interp host_full (Stage1Shell.main 5) proc0 (boot ["ls"; "pwd"]) in
  fst r = [] /\
  input (snd r) = ["pwd"] /\
  ~ line_read "pwd" (log (snd r)).
Proof.
  cbv zeta. split; [reflexivity|]. split; [reflexivity|].
  intros (q & prompt & H).
  vm_compute in H.
  repeat (destruct H as [H|H]; [discriminate H|]).
  exact H.
Qed.

(** C8, as the claim has it, fails: a line made of a space, a tab and a
    space is all white space, yet the tab is a token to get_input.  The
    shell creates child 101 for it, and on a host with no program of that
    name the child prints an error and exits with status 1. *)
Lemma tab_line_is_run :
  let tab := String (ascii_of_nat 9) EmptyString in
  let line := (" " ++ tab ++ " ")%string in
  let r := interp host_bare (Stage1Shell.main 1) proc0 (boot [line]) in
  all_chars (fun c => Ascii.eqb c " " || Ascii.eqb c (ascii_of_nat 9)) line
    = true /\
  children_of 100 (log (snd r)) = [101] /\
  calls_of 101 (log (snd r)) =
    [EExecvp (Some tab) [tab] (Some (-1)); EPerror tab; EExit 1].
Proof.
  cbv zeta. repeat split; vm_compute; reflexivity.
Qed.

(** The theorem on the lines cd /tmp and cd /usr. *)
Lemma cd_changes_child_only_witness :
  (exists w',
     interp host_missing Stage1Shell.loop_body proc0
       (boot ["cd /tmp"; "cd /usr"]) =
     ([(mkProc 101 (fds proc0) "/tmp", tt)], w')
     /\ In (proc0, EBlocked 101) (log w')
     /\ (forall q e, In (q, e) (log w') ->
           In (q, e) [] \/ q = proc0 \/ pid q = 101)) /\
  (forall fuel,
     kept_state proc0 (boot ["cd /tmp"; "cd /usr"])
       (snd (interp host_missing (Stage1Shell.shell_loop fuel) proc0
               (boot ["cd /tmp"; "cd /usr"]))) /\
     Forall (fun y => pid (fst y) = pid proc0 -> fst y = proc0)
       (fst (interp host_missing (Stage1Shell.shell_loop fuel) proc0
               (boot ["cd /tmp"; "cd /usr"])))).
Proof.
  apply (cd_changes_child_only host_missing proc0
           (boot ["cd /tmp"; "cd /usr"]) "cd /tmp" ["cd /usr"] ["/tmp"]);
    [reflexivity | intros x [] | reflexivity | reflexivity | simpl; lia
     | reflexivity].
Defined.

(** C6, where the code departs from the claim.  The line cd /nonexistent is
    typed, then ls.  The child that runs cd prints the diagnostic, then
    does not exit: it reads the next line itself, creates a child of its
    own for ls and waits for it, and is still in the loop when the model
    stops; the shell is still blocked in waitpid, waiting for a status
    that has not come. *)
Theorem failed_cd_child_stays_in_loop :
  let r := interp host_missing (Stage1Shell.main 2) proc0
             (boot ["cd /nonexistent"; "ls"]) in
  calls_of 101 (log (snd r)) =
    [EChdir (Some "/nonexistent") (-1);
     EPerror "chdir() result";
     EGetcwd 256 (Some "/home");
     EPrintf ("Current Working Directory: %s" ++ nl) [PStr "/home"];
     EReadline "$ " (Some "ls");
     EFork 102;
     EWaitpid 102] /\
  calls_of 100 (log (snd r)) =
    [EPrintf ("Welcome to shell" ++ nl) [];
     EReadline "$ " (Some "cd /nonexistent");
     EFork 101;
     EBlocked 101] /\
  terminated 101 (log (snd r)) = false /\
  map (fun x => pid (fst x)) (fst r) = [101].
Proof.
  cbv zeta. repeat split; vm_compute; reflexivity.
Qed.

(* ================================================================== *)
(** ** The directory-change utility *)
(* ================================================================== *)

Section CdUtility.

Variable os : os_model.

(** The utility's [cwd] is the shell's. *)
Lemma interp_cd_cwd {R : Type} (f : unit -> prog R) (q : proc) (w : world) :
  interp os (bind Cd.cwd f) q w =
  interp os (f tt) q (after_cwd q (cwd_named os q) w).
Proof.
  unfold Cd.cwd, after_cwd, cwd_named. cbn [bind call]. rewrite interp_vis.
  cbn [handle fst snd]. rewrite run_outs_one.
  destruct (getcwd_fails os (dir q) || (256 <? S (String.length (dir q)))%nat);
    cbn [bind call negb]; rewrite interp_vis; cbn [handle fst snd];
    rewrite run_outs_one; reflexivity.
Qed.

(** C9.  With an argument count other than two (the program name and one
    path) the utility prints invalid args and returns 1.  With one path it
    returns 0: when the directory change succeeds it is in the new
    directory and prints it, or prints the getcwd diagnostic when that
    directory cannot be named; when the change fails it prints the chdir
    diagnostic, then the directory it stayed in. *)
Theorem cd_utility_exit_codes (argv : list string) (p : proc) (w : world) :
  (List.length argv <> 2%nat ->
   interp os (Cd.main argv) p w =
   ([(p, 1)], emit p (EPrintf "invalid args" []) w)) /\
  (forall name path d,
     argv = [name; path] ->
     chdir_os os (dir p) path = Some d ->
     interp os (Cd.main argv) p w =
     ([(set_dir p d, 0)],
      after_cwd (set_dir p d) (cwd_named os (set_dir p d))
        (emit p (EChdir (Some path) 0) w))) /\
  (forall name path,
     argv = [name; path] ->
     chdir_os os (dir p) path = None ->
     interp os (Cd.main argv) p w =
     ([(p, 0)],
      after_cwd p (cwd_named os p)
        (emit p (EPerror "chdir() result")
           (emit p (EChdir (Some path) (-1)) w)))).
Proof.
  split; [|split].
  - intros Hlen. unfold Cd.main.
    destruct (Z.of_nat (List.length argv) =? 2) eqn:E.
    + apply Z.eqb_eq in E. lia.
    + cbn [negb bind call]. rewrite interp_vis. cbn [handle fst snd].
      rewrite run_outs_one. reflexivity.
  - intros name path d -> Hd. unfold Cd.main.
    change (negb (Z.of_nat (List.length [name; path]) =? 2)) with false.
    cbv match. cbn [nth_error].
    rewrite interp_call. cbn [handle]. rewrite Hd. cbn [fst snd].
    rewrite run_outs_one.
    change (negb (0 =? 0)) with false. cbv match. cbn [bind].
    rewrite interp_cd_cwd. reflexivity.
  - intros name path -> Hd. unfold Cd.main.
    change (negb (Z.of_nat (List.length [name; path]) =? 2)) with false.
    cbv match. cbn [nth_error].
    rewrite interp_call. cbn [handle]. rewrite Hd. cbn [fst snd].
    rewrite run_outs_one.
    change (negb (-1 =? 0)) with true. cbv match.
    cbn [bind call]. rewrite interp_vis. cbn [handle fst snd].
    rewrite run_outs_one, interp_cd_cwd. reflexivity.
Qed.

End CdUtility.

(** The theorem on no path, on /tmp, and on a directory that does not
    exist. *)
Lemma cd_utility_exit_codes_witness :
  interp host_ok (Cd.main ["cd"]) proc0 (boot []) =
  ([(proc0, 1)], emit proc0 (EPrintf "invalid args" []) (boot [])) /\
  interp host_ok (Cd.main ["cd"; "/tmp"]) proc0 (boot []) =
  ([(set_dir proc0 "/tmp", 0)],
   after_cwd (set_dir proc0 "/tmp") true
     (emit proc0 (EChdir (Some "/tmp") 0) (boot []))) /\
  interp host_missing (Cd.main ["cd"; "/nonexistent"]) proc0 (boot []) =
  ([(proc0, 0)],
   after_cwd proc0 true
     (emit proc0 (EPerror "chdir() result")
        (emit proc0 (EChdir (Some "/nonexistent") (-1)) (boot [])))).
Proof.
  split; [|split].
  - apply (cd_utility_exit_codes host_ok ["cd"] proc0 (boot [])).
    simpl. lia.
  - apply (proj1 (proj2 (cd_utility_exit_codes host_ok ["cd"; "/tmp"]
                           proc0 (boot []))) "cd" "/tmp" "/tmp");
      reflexivity.
  - apply (proj2 (proj2 (cd_utility_exit_codes host_missing
                           ["cd"; "/nonexistent"] proc0 (boot [])))
             "cd" "/nonexistent"); reflexivity.
Defined.

(* ================================================================== *)
(** ** The tokenizer's stores *)
(* ================================================================== *)




(* ================================================================== *)
(** ** The pipeline orchestrator: what it does not do *)
(* ================================================================== *)

(** C3, where the code departs from the claim.  The pipeline of [main] on
    a host with no awk: the child created for the second stage fails to
    become awk, prints nothing and does not exit.  [spawn_proc] returns
    the -1 of execvp to [fork_pipes], and the child goes on with the
    orchestrator's loop: it closes a descriptor it no longer has, makes a
    pipe, creates a child of its own for sort and becomes uniq. *)
Theorem failed_exec_child_runs_orchestrator :
  let r := interp host_no_awk (Pipe.main (0, 0)) proc0 (boot []) in
  calls_of 102 (log (snd r)) =
    [EDup2 3 0 0; EClose 3 0; EDup2 5 1 1; EClose 5 0;
     EExecvp (Some "awk") ["awk"; "{print $9}"] (Some (-1));
     EClose 5 (-1);
     EPipe (Some (3, 5));
     EPrintf ("pipe results: (%d %d)" ++ nl) [PInt 3; PInt 5];
     EPrintf ("set_stdin_to: %d, set_stdout_to: %d" ++ nl) [PInt 4; PInt 5];
     EFork 103;
     EClose 5 0;
     EDup2 3 0 0;
     EExecvp (Some "uniq") ["uniq"] None] /\
  map stage_argv (stage_runs (log (snd r))) =
    [["ls"; "-la"]; ["sort"]; ["uniq"]; ["sort"]; ["uniq"]].
Proof.
  cbv zeta. split; vm_compute; reflexivity.
Qed.

(** C4, where the code departs from the claim.  The pipeline of [main] on
    a host where nothing fails: the orchestrator starts with descriptors
    0, 1 and 2 and calls execvp for the last stage holding 3, 4 and 5 as
    well, the read ends of the three pipes, none of which it ever closes.
    With two stages and a last program that does not resolve, it returns
    -1 holding the read end of the one pipe as descriptor 3. *)
Theorem orchestrator_keeps_read_ends :
  let r := interp host_ok (Pipe.main (0, 0)) proc0 (boot []) in
  let r2 := interp host_missing
              (Pipe.fork_pipes (0, 0) 2
                 [Pipe.ls; Pipe.mkCommand ["nosuch"]]) proc0 (boot []) in
  open_fds (fds proc0) = [0; 1; 2] /\
  open_at_exec 100 (log (snd r)) = [[0; 1; 2; 3; 4; 5]] /\
  fds_at_exec 100 (log (snd r)) =
    [[Some (PipeR 2); Some Stdout0; Some Stderr0;
      Some (PipeR 0); Some (PipeR 1); Some (PipeR 2); None]] /\
  map (fun x => (open_fds (fds (fst x)), snd x)) (fst r2) =
    [([0; 1; 2; 3], -1)].
Proof.
  cbv zeta. repeat split; vm_compute; reflexivity.
Qed.

(** C2, as the claim has it, fails: in a pipeline of two stages on a host
    where nothing fails, the orchestrator creates child 101 and never
    waits for it. *)
Lemma pipeline_child_not_waited_for :
  let r := interp host_ok (Pipe.fork_pipes (0, 0) 2 [Pipe.ls; Pipe.sort])
             proc0 (boot []) in
  children_of 100 (log (snd r)) = [101] /\
  waits_for_all_children 100 (log (snd r)) = false.
Proof.
  cbv zeta. split; vm_compute; reflexivity.
Qed.

Section NeverWaits.

Variable os : os_model.

Lemma no_new_wait_refl (w : world) : no_new_wait w w.
Proof. intros x Hx. left. exact Hx. Qed.

Lemma no_new_wait_trans (w1 w2 w3 : world) :
  no_new_wait w1 w2 -> no_new_wait w2 w3 -> no_new_wait w1 w3.
Proof.
  intros H12 H23 x Hx. destruct (H23 x Hx) as [H|H]; [|right; exact H].
  exact (H12 x H).
Qed.

(** A call other than waitpid logs no waitpid. *)
Lemma handle_no_new_wait {X : Type} (e : sys X) (p : proc) (w : world) :
  sys_is_wait e = false -> no_new_wait w (snd (handle os e p w)).
Proof.
  intros He x Hx.
  destruct e; try discriminate He; cbn [handle] in Hx;
    repeat match type of Hx with
           | context [match ?c with _ => _ end] => destruct c
           | context [if ?c then _ else _] => destruct c
           end;
    cbn [snd] in Hx; rewrite in_log_emit in Hx;
    (destruct Hx as [Hx| ->]; [left; exact Hx|right; reflexivity]).
Qed.

Lemma run_outs_no_new_wait {X R : Type}
    (step : X -> proc -> world -> list (proc * R) * world)
    (outs : list (X * proc)) (w : world) :
  (forall x q w0, no_new_wait w0 (snd (step x q w0))) ->
  no_new_wait w (snd (run_outs step outs w)).
Proof.
  intros Hstep. unfold run_outs.
  generalize (@nil (proc * R)). revert w.
  induction outs as [|[x q] outs IH]; intros w acc; cbn [fold_left].
  - apply no_new_wait_refl.
  - cbn [fst snd]. pose proof (Hstep x q w) as H.
    destruct (step x q w) as [l w1]. cbn [snd] in H.
    eapply no_new_wait_trans; [exact H|apply IH].
Qed.

(** A program that never calls waitpid logs no waitpid, however many
    processes end up running it. *)
Lemma never_waits_interp {R : Type} (m : prog R) :
  never_waits m -> forall p w, no_new_wait w (snd (interp os m p w)).
Proof.
  induction 1 as [r|X e k He Hk IH]; intros p w.
  - apply no_new_wait_refl.
  - rewrite interp_vis.
    eapply no_new_wait_trans; [apply (handle_no_new_wait e p w He)|].
    apply run_outs_no_new_wait. intros x q w0. apply IH.
Qed.

Lemma never_waits_bind {A B : Type} (m : prog A) (f : A -> prog B) :
  never_waits m -> (forall a, never_waits (f a)) -> never_waits (bind m f).
Proof.
  induction 1 as [r|X e k He Hk IH]; intros Hf; cbn [bind].
  - apply Hf.
  - apply never_waits_vis; [exact He|]. intros x. apply IH. exact Hf.
Qed.

Lemma never_waits_call {X : Type} (e : sys X) :
  sys_is_wait e = false -> never_waits (call e).
Proof.
  intros He. apply never_waits_vis; [exact He|].
  intros x. apply never_waits_ret.
Qed.

Lemma never_waits_stop {R : Type} (e : sys Empty_set) :
  sys_is_wait e = false -> never_waits (@stop R e).
Proof.
  intros He. apply never_waits_vis; [exact He|]. intros [].
Qed.

Ltac never_waits_tac :=
  repeat first
    [ apply never_waits_ret
    | apply never_waits_call; reflexivity
    | apply never_waits_stop; reflexivity
    | apply never_waits_bind; [|intros ?]
    | match goal with
      | |- never_waits (if ?c then _ else _) => destruct c
      | |- never_waits (match ?c with _ => _ end) => destruct c
      end ].

Lemma spawn_proc_never_waits (in_fd out_fd : Z) (cmd : option Pipe.command) :
  never_waits (Pipe.spawn_proc in_fd out_fd cmd).
Proof. unfold Pipe.spawn_proc, Pipe.child_side. never_waits_tac. Qed.

Lemma fork_pipes_loop_never_waits (count : nat) (cmd : list Pipe.command)
    (i in_fd : Z) (fd : Z * Z) :
  never_waits (Pipe.fork_pipes_loop count cmd i in_fd fd).
Proof.
  revert i in_fd fd.
  induction count as [|count IH]; intros i in_fd fd;
    cbn [Pipe.fork_pipes_loop].
  - apply never_waits_ret.
  - apply never_waits_bind; [apply never_waits_call; reflexivity|].
    intros r.
    apply never_waits_bind; [apply never_waits_call; reflexivity|].
    intros _.
    apply never_waits_bind; [apply spawn_proc_never_waits|].
    intros _.
    apply never_waits_bind; [apply never_waits_call; reflexivity|].
    intros _. apply IH.
Qed.

(** C2, as the code has it.  [fork_pipes] never waits: whatever the
    pipeline and whatever the host does, the program holds no call of
    waitpid and no process running it makes one; a child that nobody had
    waited for when [fork_pipes] was called, one it created above all, has
    not been waited for when it is over. *)
Theorem fork_pipes_never_waits (fd0 : Z * Z) (n : Z)
    (cmd : list Pipe.command) (p : proc) (w : world) :
  never_waits (Pipe.fork_pipes fd0 n cmd) /\
  no_new_wait w (snd (interp os (Pipe.fork_pipes fd0 n cmd) p w)) /\
  (forall q c,
     waited_for q c (log w) = false ->
     waited_for q c
       (log (snd (interp os (Pipe.fork_pipes fd0 n cmd) p w))) = false).
Proof.
  assert (H : never_waits (Pipe.fork_pipes fd0 n cmd)).
  { unfold Pipe.fork_pipes.
    apply never_waits_bind; [apply fork_pipes_loop_never_waits|].
    intros [i in_fd]. never_waits_tac. }
  assert (Hn : no_new_wait w
                 (snd (interp os (Pipe.fork_pipes fd0 n cmd) p w)))
    by (apply never_waits_interp; exact H).
  split; [exact H|]. split; [exact Hn|].
  intros q c Hw.
  destruct (waited_for q c
              (log (snd (interp os (Pipe.fork_pipes fd0 n cmd) p w))))
    eqn:E; [|reflexivity].
  unfold waited_for in E, Hw. apply existsb_exists in E.
  destruct E as (x & Hx & Hc). destruct (Hn x Hx) as [Hold|Hnw].
  - rewrite <- Hw. symmetry. apply existsb_exists. exists x. auto.
  - apply andb_true_iff in Hc. destruct Hc as [_ Hc].
    destruct (snd x); try discriminate Hc. discriminate Hnw.
Qed.

End NeverWaits.

(** The theorem on the pipeline of [main]: child 101, which nobody had
    waited for, has not been waited for by the orchestrator when
    [fork_pipes] is over. *)
Lemma fork_pipes_never_waits_witness :
  waited_for 100 101
    (log (snd (interp host_ok
                 (Pipe.fork_pipes (0, 0) 4
                    [Pipe.ls; Pipe.awk; Pipe.sort; Pipe.uniq])
                 proc0 (boot [])))) = false.
Proof.
  apply (proj2 (proj2 (fork_pipes_never_waits host_ok (0, 0) 4
                         [Pipe.ls; Pipe.awk; Pipe.sort; Pipe.uniq]
                         proc0 (boot [])))).
  reflexivity.
Defined.

(* ================================================================== *)
(** ** The pipeline orchestrator: what it does *)
(* ================================================================== *)

Lemma stage_runs_app (l1 l2 : list (proc * event)) :
  stage_runs (l1 ++ l2) = stage_runs l1 ++ stage_runs l2.
Proof.
  induction l1 as [|[q e] l1 IH]; [reflexivity|].
  cbn [app stage_runs]. destruct e; try exact IH.
  destruct r; [exact IH|]. cbn [app]. rewrite IH. reflexivity.
Qed.

Lemma children_of_app (n : Z) (l1 l2 : list (proc * event)) :
  children_of n (l1 ++ l2) = children_of n l1 ++ children_of n l2.
Proof.
  induction l1 as [|[q e] l1 IH]; [reflexivity|].
  cbn [app children_of]. destruct e; try exact IH.
  destruct ((pid q =? n) && (0 <? r)); [|exact IH].
  cbn [app]. rewrite IH. reflexivity.
Qed.

Lemma stage_runs_emit (q : proc) (e : event) (w : world) :
  stage_runs (log (emit q e w)) = stage_runs (log w) ++ stage_runs [(q, e)].
Proof. cbn [log emit]. apply stage_runs_app. Qed.

Lemma children_of_emit (n : Z) (q : proc) (e : event) (w : world) :
  children_of n (log (emit q e w)) =
  children_of n (log w) ++ children_of n [(q, e)].
Proof. cbn [log emit]. apply children_of_app. Qed.

Lemma fd_lookup_of_nat (t : fdtable) (n : nat) :
  fd_lookup t (Z.of_nat n) = fd_get t n.
Proof.
  unfold fd_lookup.
  destruct (Z.of_nat n <? 0) eqn:E; [apply Z.ltb_lt in E; lia|].
  rewrite Nat2Z.id. reflexivity.
Qed.

Lemma cmd_at_of_nat (cmd : list Pipe.command) (i : nat) :
  Pipe.cmd_at cmd (Z.of_nat i) = nth_error cmd i.
Proof.
  unfold Pipe.cmd_at.
  destruct (Z.of_nat i <? 0) eqn:E; [apply Z.ltb_lt in E; lia|].
  rewrite Nat2Z.id. reflexivity.
Qed.

Ltac log_simpl :=
  repeat first
    [ rewrite stage_runs_emit
    | rewrite children_of_emit
    | progress cbn [log new_pid count_fork new_pipe count_pipe set_input] ].

Ltac fd_simpl :=
  repeat first [ rewrite fd_get_put_eq
               | rewrite fd_get_put_ne by (lia || congruence) ].

Section Pipeline.

Variable os : os_model.

(** The host of this section: neither fork nor pipe fails. *)
Hypothesis fork_always : forall k, fork_fails os k = false.
Hypothesis pipe_always : forall k, pipe_fails os k = false.

(** The handler on the calls of the child side, for descriptors given as
    naturals. *)
Lemma interp_dup2 {R : Type} (f : Z -> prog R) (q : proc) (w : world)
    (old new : nat) (o : fobj) :
  fd_get (fds q) old = Some o ->
  interp os (Vis (Dup2 (Z.of_nat old) (Z.of_nat new)) f) q w =
  interp os (f (Z.of_nat new)) (set_fds q (fd_put (fds q) new (Some o)))
    (emit q (EDup2 (Z.of_nat old) (Z.of_nat new) (Z.of_nat new)) w).
Proof.
  intros H. rewrite interp_vis. cbn [handle].
  rewrite fd_lookup_of_nat, H.
  destruct (Z.of_nat new <? 0) eqn:E; [apply Z.ltb_lt in E; lia|].
  cbn [fst snd]. rewrite run_outs_one, Nat2Z.id. reflexivity.
Qed.

Lemma interp_close {R : Type} (f : Z -> prog R) (q : proc) (w : world)
    (fd : nat) (o : fobj) :
  fd_get (fds q) fd = Some o ->
  interp os (Vis (Close (Z.of_nat fd)) f) q w =
  interp os (f 0) (set_fds q (fd_put (fds q) fd None))
    (emit q (EClose (Z.of_nat fd) 0) w).
Proof.
  intros H. rewrite interp_vis. cbn [handle].
  rewrite fd_lookup_of_nat, H.
  cbn [fst snd]. rewrite run_outs_one, Nat2Z.id. reflexivity.
Qed.

Lemma of_nat_eqb (a b : nat) : (Z.of_nat a =? Z.of_nat b) = (a =? b)%nat.
Proof.
  destruct (Nat.eqb_spec a b) as [->|H].
  - apply Z.eqb_refl.
  - apply Z.eqb_neq. lia.
Qed.

(** The child side of [spawn_proc] when the program resolves: the child
    becomes the stage, reading what [m] referred to and writing what [out]
    referred to. *)
Lemma child_side_becomes_stage {R : Type} (g : Z -> prog R)
    (q : proc) (w : world) (m out : nat) (cur wobj : fobj)
    (c : Pipe.command) :
  resolves os (dir q) c ->
  m <> 1%nat -> out <> 0%nat -> out <> 1%nat -> out <> m ->
  fd_get (fds q) m = Some cur ->
  fd_get (fds q) out = Some wobj ->
  exists w',
    interp os (bind (Pipe.child_side (Z.of_nat m) (Z.of_nat out) (Some c)) g)
      q w = ([], w') /\
    stage_runs (log w') =
      stage_runs (log w) ++ [mkStage (pid q) (Pipe.argv c) (Some cur) (Some wobj)] /\
    (forall n, children_of n (log w') = children_of n (log w)) /\
    next_pid w' = next_pid w /\ next_pipe w' = next_pipe w.
Proof.
  intros Hargv Hm1 Ho0 Ho1 Hom Hcur Hout.
  unfold Pipe.child_side.
  change 0 with (Z.of_nat 0). change 1 with (Z.of_nat 1).
  rewrite !of_nat_eqb.
  rewrite (proj2 (Nat.eqb_neq out 1) Ho1). cbn [negb].
  assert (Hexec : forall (q' : proc) (w0 : world) (k : Z -> prog R),
    fd_get (fds q') 0 = Some cur -> fd_get (fds q') 1 = Some wobj ->
    pid q' = pid q -> dir q' = dir q ->
    exists w',
      interp os (Vis (Execvp (hd_error (Pipe.argv c)) (Pipe.argv c)) k)
        q' w0 = ([], w') /\
      stage_runs (log w') =
        stage_runs (log w0) ++
        [mkStage (pid q) (Pipe.argv c) (Some cur) (Some wobj)] /\
      (forall n, children_of n (log w') = children_of n (log w0)) /\
      next_pid w' = next_pid w0 /\ next_pipe w' = next_pipe w0).
  { intros q' w0 k H0 H1 Hpid Hdir. rewrite interp_vis.
    unfold resolves in Hargv.
    destruct (Pipe.argv c) as [|a0 rest] eqn:Ea; [contradiction|].
    cbn [hd_error handle]. rewrite Hdir, Hargv. cbn [fst snd].
    rewrite run_outs_nil. eexists. split; [reflexivity|].
    rewrite stage_runs_emit. cbn [stage_runs]. rewrite H0, H1, Hpid.
    split; [reflexivity|]. split; [|split; reflexivity].
    intros n. rewrite children_of_emit. cbn [children_of].
    apply app_nil_r. }
  destruct m as [|m].
  - cbn [Nat.eqb negb bind call].
    rewrite (interp_dup2 _ _ _ _ _ _ Hout). 
    rewrite (interp_close _ _ _ out wobj)
      by (cbn [fds set_fds]; fd_simpl; exact Hout).
    cbn [bind].
    match goal with
    | |- context [interp os (Vis (Execvp _ _) ?k) ?q' ?w0] =>
        destruct (Hexec q' w0 k) as (w' & E & Hs & Hc & Hp1 & Hp2)
    end.
    + cbn [fds set_fds]. fd_simpl. exact Hcur.
    + cbn [fds set_fds]. fd_simpl. reflexivity.
    + reflexivity.
    + reflexivity.
    + exists w'. split; [exact E|].
      rewrite Hs, !stage_runs_emit. cbn [stage_runs]. rewrite !app_nil_r.
      split; [reflexivity|]. split; [|split; [rewrite Hp1|rewrite Hp2]; reflexivity].
      intros n. rewrite Hc, !children_of_emit. cbn [children_of].
      rewrite !app_nil_r. reflexivity.
  - cbn [Nat.eqb negb bind call].
    rewrite (interp_dup2 _ _ _ _ _ _ Hcur).
    rewrite (interp_close _ _ _ (S m) cur)
      by (cbn [fds set_fds]; fd_simpl; exact Hcur).
    cbn [bind].
    rewrite (interp_dup2 _ _ _ out 1%nat wobj)
      by (cbn [fds set_fds]; fd_simpl; exact Hout).
    rewrite (interp_close _ _ _ out wobj)
      by (cbn [fds set_fds]; fd_simpl; exact Hout).
    cbn [bind].
    match goal with
    | |- context [interp os (Vis (Execvp _ _) ?k) ?q' ?w0] =>
        destruct (Hexec q' w0 k) as (w' & E & Hs & Hc & Hp1 & Hp2)
    end.
    + cbn [fds set_fds]. fd_simpl. reflexivity.
    + cbn [fds set_fds]. fd_simpl. reflexivity.
    + reflexivity.
    + reflexivity.
    + exists w'. split; [exact E|].
      rewrite Hs, !stage_runs_emit. cbn [stage_runs]. rewrite !app_nil_r.
      split; [reflexivity|]. split; [|split; [rewrite Hp1|rewrite Hp2]; reflexivity].
      intros n. rewrite Hc, !children_of_emit. cbn [children_of].
      rewrite !app_nil_r. reflexivity.
Qed.

Lemma run_outs_ext {X R : Type}
    (step1 step2 : X -> proc -> world -> list (proc * R) * world)
    (outs : list (X * proc)) (w : world) :
  (forall x q w0, step1 x q w0 = step2 x q w0) ->
  run_outs step1 outs w = run_outs step2 outs w.
Proof.
  intros H. unfold run_outs. generalize (@nil (proc * R), w).
  induction outs as [|o outs IH]; intros acc; cbn [fold_left];
    [reflexivity|].
  rewrite H. apply IH.
Qed.

Lemma interp_bind_assoc {A B C : Type} (m : prog A) (f : A -> prog B)
    (g : B -> prog C) (p : proc) (w : world) :
  interp os (bind (bind m f) g) p w =
  interp os (bind m (fun x => bind (f x) g)) p w.
Proof.
  revert p w. induction m as [a|X e k IH]; intros p w; [reflexivity|].
  cbn [bind]. rewrite !interp_vis. apply run_outs_ext.
  intros x q w0. apply IH.
Qed.

(** [spawn_proc] when fork succeeds and the program resolves: the parent
    goes on with the child's pid, and the child became the stage. *)
Lemma spawn_proc_runs {R : Type} (g : Z -> prog R)
    (p : proc) (w : world) (m out : nat) (cur wobj : fobj)
    (c : Pipe.command) :
  resolves os (dir p) c ->
  m <> 1%nat -> out <> 0%nat -> out <> 1%nat -> out <> m ->
  fd_get (fds p) m = Some cur ->
  fd_get (fds p) out = Some wobj ->
  exists w',
    interp os (bind (Pipe.spawn_proc (Z.of_nat m) (Z.of_nat out) (Some c)) g)
      p w = interp os (g (Z.pos (next_pid w))) p w' /\
    stage_runs (log w') =
      stage_runs (log w) ++
      [mkStage (Z.pos (next_pid w)) (Pipe.argv c) (Some cur) (Some wobj)] /\
    children_of (pid p) (log w') =
      children_of (pid p) (log w) ++ [Z.pos (next_pid w)] /\
    next_pid w' = Pos.succ (next_pid w) /\ next_pipe w' = next_pipe w.
Proof.
  intros Hargv Hm1 Ho0 Ho1 Hom Hcur Hout.
  unfold Pipe.spawn_proc. cbn [bind call].
  rewrite interp_vis. cbn [handle fst snd]. rewrite run_outs_one.
  rewrite interp_vis. cbn [handle nfork emit]. rewrite fork_always.
  cbn [fst snd]. rewrite run_outs_two.
  cbn [Z.eqb next_pid emit bind].
  match goal with
  | |- context [interp os (bind (Pipe.child_side _ _ _) ?g0) ?q ?w0] =>
      destruct (child_side_becomes_stage g0 q w0 m out cur wobj c)
        as (w' & E & Hs & Hc & Hp1 & Hp2); auto
  end.
  rewrite E. cbn [fst snd app].
  exists w'. split; [destruct (interp os (g (Z.pos (next_pid w))) p w'); reflexivity|].
  rewrite Hs, Hc, Hp1, Hp2. log_simpl.
  cbn [stage_runs children_of]. rewrite Z.eqb_refl.
  cbn [andb Z.ltb Z.compare app pid set_pid emit new_pid count_fork
       next_pid next_pipe].
  rewrite !app_nil_r. repeat split; reflexivity.
Qed.


(** The loop of [fork_pipes] with [count] turns left, stage [i] next, the
    current input being descriptor [m] of the orchestrator. *)
Lemma fork_pipes_loop_runs {R : Type} (cmd : list Pipe.command)
    (i0 o0 : fobj) (f : Z * Z -> prog R) (count : nat) :
  forall (i m : nat) (cur : fobj) (p : proc) (w : world) (fd : Z * Z),
  fd_get (fds p) 0 = Some i0 ->
  fd_get (fds p) 1 = Some o0 ->
  m <> 1%nat ->
  fd_get (fds p) m = Some cur ->
  (forall j, (j < count)%nat ->
     exists c, nth_error cmd (i + j) = Some c /\ resolves os (dir p) c) ->
  exists p' w' m',
    interp os
      (bind (Pipe.fork_pipes_loop count cmd (Z.of_nat i) (Z.of_nat m) fd) f)
      p w =
    interp os (f (Z.of_nat (i + count), Z.of_nat m')) p' w' /\
    pid p' = pid p /\
    dir p' = dir p /\
    fd_get (fds p') 0 = Some i0 /\
    fd_get (fds p') 1 = Some o0 /\
    m' <> 1%nat /\
    fd_get (fds p') m' =
      Some (match count with
            | O => cur
            | S c => PipeR (next_pipe w + c)
            end) /\
    stage_runs (log w') =
      stage_runs (log w) ++
      map (fun j =>
             mkStage (Z.pos (next_pid w) + Z.of_nat j)
               (Pipe.argv (nth (i + j) cmd (Pipe.mkCommand [])))
               (Some (match j with
                      | O => cur
                      | S j' => PipeR (next_pipe w + j')
                      end))
               (Some (PipeW (next_pipe w + j))))
          (seq 0 count) /\
    children_of (pid p) (log w') =
      children_of (pid p) (log w) ++
      map (fun j => Z.pos (next_pid w) + Z.of_nat j) (seq 0 count) /\
    Z.pos (next_pid w') = Z.pos (next_pid w) + Z.of_nat count /\
    next_pipe w' = (next_pipe w + count)%nat.
Proof.
  induction count as [|count IH]; intros i m cur p w fd H0 H1 Hm1 Hcur Hcmd.
  - exists p, w, m. cbn [Pipe.fork_pipes_loop bind seq map].
    rewrite !app_nil_r, !Nat.add_0_r, Z.add_0_r. repeat split; auto.
  - cbn [Pipe.fork_pipes_loop bind call].
    rewrite interp_vis. cbn [handle]. rewrite pipe_always. cbn [fst snd].
    rewrite run_outs_one.
    set (r := fd_alloc (fds p)).
    set (t1 := fd_put (fds p) r (Some (PipeR (next_pipe w)))).
    set (wr := fd_alloc t1).
    set (t2 := fd_put t1 wr (Some (PipeW (next_pipe w)))).
    assert (Hr0 : r <> 0%nat) by (apply (fd_alloc_not_open _ _ _ H0)).
    assert (Hr1 : r <> 1%nat) by (apply (fd_alloc_not_open _ _ _ H1)).
    assert (Hrm : r <> m) by (apply (fd_alloc_not_open _ _ _ Hcur)).
    assert (Hw0 : wr <> 0%nat).
    { apply (fd_alloc_not_open t1 0%nat i0). unfold t1. fd_simpl. exact H0. }
    assert (Hw1 : wr <> 1%nat).
    { apply (fd_alloc_not_open t1 1%nat o0). unfold t1. fd_simpl. exact H1. }
    assert (Hwm : wr <> m).
    { apply (fd_alloc_not_open t1 m cur). unfold t1. fd_simpl. exact Hcur. }
    assert (Hwr : wr <> r).
    { apply (fd_alloc_not_open t1 r (PipeR (next_pipe w))).
      unfold t1. fd_simpl. reflexivity. }
    rewrite interp_vis. cbn [handle fst snd]. rewrite run_outs_one.
    rewrite interp_bind_assoc.
    destruct (Hcmd 0%nat) as (c & Hc & Hargv); [lia|].
    rewrite Nat.add_0_r in Hc.
    rewrite cmd_at_of_nat, Hc.
    match goal with
    | |- context [interp os (bind (Pipe.spawn_proc _ _ _) ?g) ?q ?w0] =>
        destruct (spawn_proc_runs g q w0 m wr cur (PipeW (next_pipe w)) c)
          as (w1 & E & Hs & Hk & Hp1 & Hp2); auto
    end.
    { cbn [fds set_fds]. unfold t2, t1. fd_simpl. exact Hcur. }
    { cbn [fds set_fds]. unfold t2. fd_simpl. reflexivity. }
    rewrite E. clear E. cbn [bind call].
    rewrite (interp_close _ _ _ wr (PipeW (next_pipe w)))
      by (cbn [fds set_fds]; unfold t2; fd_simpl; reflexivity).
    replace (Z.of_nat i + 1) with (Z.of_nat (S i)) by lia.
    match goal with
    | |- context [interp os (bind (Pipe.fork_pipes_loop _ _ _ _ ?fd1) f)
                    ?q ?w0] =>
        destruct (IH (S i) r (PipeR (next_pipe w)) q w0 fd1)
          as (p' & w' & m' & E & Hpid & Hdir & H0' & H1' & Hm' & Hcur' & Hs'
              & Hk' & Hp1' & Hp2')
    end.
    { cbn [fds set_fds]. unfold t2, t1. fd_simpl. exact H0. }
    { cbn [fds set_fds]. unfold t2, t1. fd_simpl. exact H1. }
    { exact Hr1. }
    { cbn [fds set_fds]. unfold t2, t1. fd_simpl. reflexivity. }
    { intros j Hj. destruct (Hcmd (S j)) as (c' & Hc' & Hargv'); [lia|].
      exists c'. split; [|exact Hargv'].
      replace (S i + j)%nat with (i + S j)%nat by lia. exact Hc'. }
    exists p', w', m'.
    cbn [next_pid next_pipe emit new_pipe count_pipe pid set_fds] in *.
    rewrite Hp1 in *. rewrite Hp2 in *. clear Hp1 Hp2.
    rewrite Pos2Z.inj_succ in *.
    replace (i + S count)%nat with (S i + count)%nat by lia.
    split; [exact E|]. split; [exact Hpid|]. split; [exact Hdir|].
    split; [exact H0'|]. split; [exact H1'|]. split; [exact Hm'|].
    split.
    { rewrite Hcur'. f_equal. destruct count; f_equal; lia. }
    split.
    { rewrite Hs'. log_simpl. rewrite Hs. log_simpl.
      cbn [stage_runs seq map]. rewrite !app_nil_r, <- app_assoc.
      f_equal. cbn [app]. f_equal.
      - rewrite !Nat.add_0_r, Z.add_0_r.
        rewrite (nth_error_nth cmd i (Pipe.mkCommand []) Hc). reflexivity.
      - rewrite <- seq_shift, map_map. apply map_ext. intros j.
        f_equal.
        + lia.
        + replace (S i + j)%nat with (i + S j)%nat by lia. reflexivity.
        + f_equal. destruct j; f_equal; lia.
        + do 2 f_equal. lia. }
    split.
    { rewrite Hk'. log_simpl. rewrite Hk. log_simpl.
      cbn [children_of seq map]. rewrite !app_nil_r, <- app_assoc.
      f_equal. cbn [app]. f_equal; try lia.
      rewrite <- seq_shift, map_map. apply map_ext. intros j. lia. }
    split; lia.
Qed.

(** C1.  A pipeline of one stage or more, the program of every stage
    resolving, started by a process that has descriptors 0 and 1, on a
    host where fork and pipe do not fail.  The stages that become their program are, in
    order, stage 0, 1, ... and the last: each stage before the last runs
    in a child of its own, created by the orchestrator in that order, and
    writes the write end of a pipe made for it; stage 0 reads what the
    orchestrator had as descriptor 0 and every other stage the read end
    of the pipe of the stage before; the last stage runs in the
    orchestrator itself, no process comes back from [fork_pipes], and it
    writes what the orchestrator had as descriptor 1.  One pipe is made
    per stage before the last. *)
Theorem fork_pipes_runs_pipeline (fd0 : Z * Z) (cmd : list Pipe.command)
    (p : proc) (w : world) :
  cmd <> [] ->
  Forall (resolves os (dir p)) cmd ->
  fd_get (fds p) 0 <> None ->
  fd_get (fds p) 1 <> None ->
  let n := List.length cmd in
  let r := interp os (Pipe.fork_pipes fd0 (Z.of_nat n) cmd) p w in
  fst r = [] /\
  stage_runs (log (snd r)) =
    stage_runs (log w) ++ map (pipeline_stage p w cmd n) (seq 0 n) /\
  children_of (pid p) (log (snd r)) =
    children_of (pid p) (log w) ++
    map (fun j => Z.pos (next_pid w) + Z.of_nat j) (seq 0 (n - 1)) /\
  next_pipe (snd r) = (next_pipe w + (n - 1))%nat.
Proof.
  intros Hne Hargv H0 H1 n r.
  destruct (fd_get (fds p) 0) as [i0|] eqn:E0; [clear H0|congruence].
  destruct (fd_get (fds p) 1) as [o0|] eqn:E1; [clear H1|congruence].
  assert (Hn : (1 <= n)%nat).
  { unfold n. destruct cmd; [congruence|simpl; lia]. }
  assert (Hcmd : forall j, (j < n)%nat ->
            exists c, nth_error cmd j = Some c /\ resolves os (dir p) c).
  { intros j Hj. destruct (nth_error cmd j) as [c|] eqn:Ec.
    - exists c. split; [reflexivity|].
      rewrite Forall_forall in Hargv. apply Hargv.
      apply (nth_error_In _ _ Ec).
    - apply nth_error_None in Ec. unfold n in Hj. lia. }
  assert (Hrun : exists wf,
    interp os (Pipe.fork_pipes fd0 (Z.of_nat n) cmd) p w = ([], wf) /\
    stage_runs (log wf) =
      stage_runs (log w) ++ map (pipeline_stage p w cmd n) (seq 0 n) /\
    children_of (pid p) (log wf) =
      children_of (pid p) (log w) ++
      map (fun j => Z.pos (next_pid w) + Z.of_nat j) (seq 0 (n - 1)) /\
    next_pipe wf = (next_pipe w + (n - 1))%nat).
  { unfold Pipe.fork_pipes.
    replace (Z.to_nat (Z.of_nat n - 1)) with (n - 1)%nat by lia.
    match goal with
    | |- context [interp os (bind (Pipe.fork_pipes_loop _ _ _ _ _) ?f) _ _] =>
        destruct (fork_pipes_loop_runs cmd i0 o0 f (n - 1) 0%nat 0%nat i0
                    p w fd0)
          as (p' & w' & m' & E & Hpid & Hdir & H0' & H1' & Hm' & Hcur' & Hs'
              & Hk' & Hp1' & Hp2'); auto
    end.
    { intros j Hj. apply Hcmd. lia. }
    cbn [Z.of_nat] in E. rewrite E. clear E. cbn [Nat.add].
    destruct (Hcmd (n - 1)%nat) as (c & Hc & Hargc); [lia|].
    rewrite cmd_at_of_nat, Hc.
    assert (Hexec : forall (q : proc) (k : Z -> prog Z),
      pid q = pid p ->
      dir q = dir p ->
      fd_get (fds q) 0 =
        Some (match (n - 1)%nat with
              | O => i0
              | S c => PipeR (next_pipe w + c)
              end) ->
      fd_get (fds q) 1 = Some o0 ->
      forall w0,
      stage_runs (log w0) = stage_runs (log w') ->
      children_of (pid p) (log w0) = children_of (pid p) (log w') ->
      next_pipe w0 = next_pipe w' ->
      exists wf,
        interp os (Vis (Execvp (hd_error (Pipe.argv c)) (Pipe.argv c)) k)
          q w0 = ([], wf) /\
        stage_runs (log wf) =
          stage_runs (log w) ++ map (pipeline_stage p w cmd n) (seq 0 n) /\
        children_of (pid p) (log wf) =
          children_of (pid p) (log w) ++
          map (fun j => Z.pos (next_pid w) + Z.of_nat j) (seq 0 (n - 1)) /\
        next_pipe wf = (next_pipe w + (n - 1))%nat).
    { intros q k Hq Hqd Hq0 Hq1 w0 Hw0s Hw0k Hw0p. rewrite interp_vis.
      unfold resolves in Hargc.
      destruct (Pipe.argv c) as [|a0 rest] eqn:Ea; [contradiction|].
      cbn [hd_error handle]. rewrite Hqd, Hargc. cbn [fst snd].
      rewrite run_outs_nil. eexists. split; [reflexivity|].
      log_simpl. rewrite Hw0s, Hw0k, Hs', Hk'.
      cbn [stage_runs children_of next_pipe emit].
      rewrite Hq, Hq0, Hq1, app_nil_r, <- app_assoc.
      split; [|split; [reflexivity|lia]].
      f_equal.
      replace (seq 0 n) with (seq 0 (n - 1) ++ [(n - 1)%nat])
        by (change (n - 1)%nat with (0 + (n - 1))%nat at 2;
            rewrite <- seq_S; f_equal; lia).
      rewrite map_app. cbn [map].
      f_equal.
      - apply map_ext_in. intros j Hj. apply in_seq in Hj.
        unfold pipeline_stage.
        replace (S j <? n)%nat with true
          by (symmetry; apply Nat.ltb_lt; lia).
        f_equal. destruct j; [symmetry; exact E0|reflexivity].
      - unfold pipeline_stage.
        replace (S (n - 1) <? n)%nat with false
          by (symmetry; apply Nat.ltb_ge; lia).
        rewrite (nth_error_nth cmd (n - 1) (Pipe.mkCommand []) Hc), Ea, E1.
        do 2 f_equal. destruct (n - 1)%nat; [symmetry; exact E0|reflexivity]. }
    change 0 with (Z.of_nat 0). rewrite of_nat_eqb.
    destruct m' as [|m'].
    - cbn [Nat.eqb negb bind]. apply Hexec; auto.
    - cbn [Nat.eqb negb bind call].
      rewrite (interp_dup2 _ _ _ _ _ _ Hcur'). cbn [bind].
      apply Hexec; auto.
      + cbn [fds set_fds]. fd_simpl. reflexivity.
      + cbn [fds set_fds]. fd_simpl. exact H1'.
      + log_simpl. cbn [stage_runs]. apply app_nil_r.
      + log_simpl. cbn [children_of]. apply app_nil_r. }
  destruct Hrun as (wf & E & Hs & Hk & Hp).
  subst r. rewrite E. cbn [fst snd]. auto.
Qed.
End Pipeline.

(** The theorem on the pipeline of [main]. *)
Lemma fork_pipes_runs_pipeline_witness :
  let r := interp host_ok (Pipe.main (0, 0)) proc0 (boot []) in
  fst r = [] /\
  stage_runs (log (snd r)) =
    [mkStage 101 ["ls"; "-la"] (Some Stdin0) (Some (PipeW 0));
     mkStage 102 ["awk"; "{print $9}"] (Some (PipeR 0)) (Some (PipeW 1));
     mkStage 103 ["sort"] (Some (PipeR 1)) (Some (PipeW 2));
     mkStage 100 ["uniq"] (Some (PipeR 2)) (Some Stdout0)] /\
  children_of 100 (log (snd r)) = [101; 102; 103] /\
  next_pipe (snd r) = 3%nat.
Proof.
  apply (fork_pipes_runs_pipeline host_ok
           (fun _ => eq_refl) (fun _ => eq_refl)
           (0, 0) [Pipe.ls; Pipe.awk; Pipe.sort; Pipe.uniq] proc0 (boot [])).
  - discriminate.
  - repeat constructor.
  - discriminate.
  - discriminate.
Defined.

(* ================================================================== *)
(** ** The tokenizer: what get_input returns *)
(* ================================================================== *)

Lemma words_aux_clean (s : string) :
  match fst (words_aux " " s) with
  | Some t => clean_token t = true
  | None => True
  end /\
  Forall (fun t => clean_token t = true) (snd (words_aux " " s)).
Proof.
  induction s as [|c s [IHh IHw]]; [split; [exact I|constructor]|].
  cbn [words_aux]. destruct (words_aux " " s) as [h ws]. cbn [fst snd] in *.
  cbn [Stage1Shell.is_delim]. rewrite orb_false_r.
  destruct (Ascii.eqb c " ") eqn:E; cbn [fst snd].
  - split; [exact I|]. destruct h; cbn [cons_opt]; [constructor|]; assumption.
  - split; [|exact IHw]. unfold clean_token. cbn [String.eqb all_chars negb andb].
    rewrite E. cbn [negb andb].
    destruct h as [t|]; [|reflexivity].
    unfold clean_token in IHh. apply andb_true_iff in IHh. apply IHh.
Qed.

Lemma words_clean (s : string) :
  Forall (fun t => clean_token t = true) (words " " s).
Proof.
  unfold words. destruct (words_aux_clean s) as [Hh Hw].
  destruct (fst (words_aux " " s)); cbn [cons_opt]; [constructor|]; assumption.
Qed.

Lemma in_number_from (i : Z) (l : list slot) (j : Z) (v : slot) :
  In (j, v) (number_from i l) -> In v l.
Proof.
  revert i. induction l as [|x l IH]; intros i H; [destruct H|].
  cbn [number_from] in H. destruct H as [H|H].
  - injection H as _ ->. left. reflexivity.
  - right. exact (IH _ H).
Qed.

(** X1.  Every pointer [get_input] stores into [command] points to a token
    that is not empty and holds no space: runs of spaces, and spaces at
    either end of the line, give no empty argument. *)
Theorem get_input_tokens_clean (line : string) (i : Z) (t : string) :
  In (i, Ptr t) (Stage1Shell.get_input_stores line) ->
  clean_token t = true.
Proof.
  rewrite get_input_stores_words. intros H.
  apply in_number_from in H. apply in_app_iff in H.
  destruct H as [H|[H|[]]]; [|discriminate].
  apply in_map_iff in H. destruct H as (t' & E & Ht). injection E as ->.
  pose proof (words_clean line) as Hc. rewrite Forall_forall in Hc.
  exact (Hc t Ht).
Qed.

Lemma words_aux_spaceless (t : string) :
  all_chars (fun c => negb (Ascii.eqb c " "%char)) t = true ->
  (forall s, words_aux " " (t ++ String " " s) =
             (if String.eqb t EmptyString then None else Some t, words " " s)) /\
  words_aux " " t =
    (if String.eqb t EmptyString then None else Some t, []).
Proof.
  induction t as [|c t IH]; intros H.
  - split; [|reflexivity]. intros s. cbn [append words_aux].
    unfold words. destruct (words_aux " " s) as [h ws]. reflexivity.
  - cbn [all_chars] in H. apply andb_true_iff in H. destruct H as [Hc Ht].
    apply negb_true_iff in Hc.
    destruct (IH Ht) as [IH1 IH2]. split.
    + intros s. cbn [append words_aux]. rewrite IH1.
      cbn [Stage1Shell.is_delim]. rewrite orb_false_r, Hc.
      cbn [String.eqb]. destruct (String.eqb t ""%string) eqn:E.
      * apply String.eqb_eq in E. subst t. reflexivity.
      * reflexivity.
    + cbn [words_aux]. rewrite IH2.
      cbn [Stage1Shell.is_delim]. rewrite orb_false_r, Hc.
      cbn [String.eqb]. destruct (String.eqb t ""%string) eqn:E.
      * apply String.eqb_eq in E. subst t. reflexivity.
      * reflexivity.
Qed.

Lemma words_join (ts : list string) :
  Forall (fun t => clean_token t = true) ts ->
  words " " (join_tokens ts) = ts.
Proof.
  induction ts as [|t ts IH]; intros H; [reflexivity|].
  inversion H as [|t0 ts0 Ht Hts]; subst.
  unfold clean_token in Ht. apply andb_true_iff in Ht.
  destruct Ht as [Hne Hsp]. apply negb_true_iff in Hne.
  destruct (words_aux_spaceless t Hsp) as [H1 H2].
  destruct ts as [|t' ts].
  - cbn [join_tokens]. unfold words. rewrite H2, Hne. reflexivity.
  - change (join_tokens (t :: t' :: ts))
      with (t ++ String " " (join_tokens (t' :: ts)))%string.
    unfold words at 1. rewrite H1, Hne. cbn [fst snd cons_opt].
    rewrite (IH Hts). reflexivity.
Qed.

(** X2.  Round trip.  For tokens that are not empty and hold no space,
    [get_input] on the tokens joined by single spaces stores exactly those
    tokens, in order, then the null entry; with seven tokens or fewer the
    array it returns holds them as its argument vector. *)
Theorem get_input_of_joined (ts : list string) :
  Forall (fun t => clean_token t = true) ts ->
  Stage1Shell.get_input_stores (join_tokens ts) =
    number_from 0 (map Ptr ts ++ [Null]) /\
  ((List.length ts <= 7)%nat ->
   exists command,
     Stage1Shell.get_input (join_tokens ts) = Some command /\
     Stage1Shell.argv_of command = ts).
Proof.
  intros H. pose proof (words_join ts H) as Hw. split.
  - rewrite get_input_stores_words, Hw. reflexivity.
  - intros Hlen. rewrite get_input_words; rewrite Hw; [|exact Hlen].
    eexists. split; [reflexivity|]. apply argv_of_words.
Qed.

(** X3.  On a line of seven tokens or fewer [get_input] returns: the
    array has the 8 slots of the allocation, slot [k] points to token [k]
    of the line for every [k] below the number of tokens, and the slot
    after the last token is null. *)
Theorem get_input_returns_tokens (line : string) :
  (List.length (words " " line) <= 7)%nat ->
  exists command,
    Stage1Shell.get_input line = Some command /\
    List.length command = 8%nat /\
    Stage1Shell.argv_of command = words " " line /\
    (forall k, (k < List.length (words " " line))%nat ->
       nth k command Uninit = Ptr (nth k (words " " line) EmptyString)) /\
    nth (List.length (words " " line)) command Uninit = Null.
Proof.
  intros Hlen. rewrite (get_input_words line Hlen).
  eexists. split; [reflexivity|]. split; [|split; [apply argv_of_words|split]].
  - rewrite length_app, length_map. cbn [List.length]. rewrite repeat_length. lia.
  - intros k Hk. rewrite app_nth1 by (rewrite length_map; exact Hk).
    rewrite (nth_indep _ Uninit (Ptr EmptyString))
      by (rewrite length_map; exact Hk).
    apply (map_nth Ptr).
  - rewrite app_nth2 by (rewrite length_map; lia).
    rewrite length_map, Nat.sub_diag. reflexivity.
Qed.

(** X1 on the second token of a line with doubled and trailing spaces. *)
Lemma get_input_tokens_clean_witness : clean_token "-la" = true.
Proof.
  apply (get_input_tokens_clean "ls  -la " 1 "-la").
  right. left. reflexivity.
Defined.

(** X2 on three tokens. *)
Lemma get_input_of_joined_witness :
  Stage1Shell.get_input_stores "ls -la /tmp" =
    [(0, Ptr "ls"); (1, Ptr "-la"); (2, Ptr "/tmp"); (3, Null)] /\
  ((3 <= 7)%nat ->
   exists command,
     Stage1Shell.get_input "ls -la /tmp" = Some command /\
     Stage1Shell.argv_of command = ["ls"; "-la"; "/tmp"]).
Proof.
  apply (get_input_of_joined ["ls"; "-la"; "/tmp"]).
  repeat constructor.
Defined.

(** X3 on a line with a leading and a doubled space. *)
Lemma get_input_returns_tokens_witness :
  exists command,
    Stage1Shell.get_input " ls  -la" = Some command /\
    List.length command = 8%nat /\
    Stage1Shell.argv_of command = ["ls"; "-la"] /\
    (forall k, (k < 2)%nat ->
       nth k command Uninit = Ptr (nth k ["ls"; "-la"] EmptyString)) /\
    nth 2 command Uninit = Null.
Proof.
  apply (get_input_returns_tokens " ls  -la").
  cbn. lia.
Defined.

(* ================================================================== *)
(** ** The calls the programs can reach *)
(* ================================================================== *)

Section Within.
Variable os : os_model.

Lemma handle_can_return {X : Type} (e : sys X) (p : proc) (w : world) :
  Forall (fun o => can_return e (fst o)) (fst (handle os e p w)).
Proof.
  destruct e; cbn [handle can_return];
    repeat match goal with
           | |- context [match ?c with _ => _ end] => destruct c
           end;
    cbn [fst]; repeat constructor.
Qed.

Lemma run_outs_within {X R : Type}
    (step : X -> proc -> world -> list (proc * R) * world)
    (okx : X -> Prop) (okr : R -> Prop) (okev : event -> Prop)
    (outs : list (X * proc)) (w : world) :
  (forall x q w0, okx x ->
     Forall (fun y => okr (snd y)) (fst (step x q w0)) /\
     (forall z, In z (log (snd (step x q w0))) ->
        In z (log w0) \/ okev (snd z))) ->
  Forall (fun o => okx (fst o)) outs ->
  Forall (fun y => okr (snd y)) (fst (run_outs step outs w)) /\
  (forall z, In z (log (snd (run_outs step outs w))) ->
     In z (log w) \/ okev (snd z)).
Proof.
  intros Hstep. unfold run_outs.
  assert (G : forall (acc : list (proc * R)) (w1 : world),
    Forall (fun y => okr (snd y)) acc ->
    (forall z, In z (log w1) -> In z (log w) \/ okev (snd z)) ->
    Forall (fun o => okx (fst o)) outs ->
    Forall (fun y => okr (snd y))
      (fst (fold_left
              (fun (acc : list (proc * R) * world) (o : X * proc) =>
                 let '(l, w') := step (fst o) (snd o) (snd acc) in
                 (fst acc ++ l, w')) outs (acc, w1))) /\
    (forall z,
       In z (log (snd (fold_left
              (fun (acc : list (proc * R) * world) (o : X * proc) =>
                 let '(l, w') := step (fst o) (snd o) (snd acc) in
                 (fst acc ++ l, w')) outs (acc, w1)))) ->
       In z (log w) \/ okev (snd z))).
  { induction outs as [|[x q] outs IH]; intros acc w1 Hacc Hw1 Houts;
      cbn [fold_left].
    - split; assumption.
    - cbn [fst snd]. inversion Houts as [|o os0 Ho Hos]; subst.
      destruct (Hstep x q w1 Ho) as [Hl Hk].
      destruct (step x q w1) as [l w2]. cbn [fst snd] in Hl, Hk.
      apply IH; [apply Forall_app; split; assumption| |exact Hos].
      intros z Hz. destruct (Hk z Hz) as [H|H]; [exact (Hw1 z H)|right; exact H]. }
  intros Houts. apply G; [constructor|auto|exact Houts].
Qed.

Lemma runs_within_interp {R : Type} (okc : forall X, sys X -> Prop)
    (okr : R -> Prop) (okev : event -> Prop) :
  (forall X (e : sys X) p w z, okc X e ->
     In z (log (snd (handle os e p w))) -> In z (log w) \/ okev (snd z)) ->
  forall m, runs_within okc okr m ->
  forall p w,
    Forall (fun y => okr (snd y)) (fst (interp os m p w)) /\
    (forall z, In z (log (snd (interp os m p w))) ->
       In z (log w) \/ okev (snd z)).
Proof.
  intros Hev m. induction 1 as [r Hr|X e k He Hk IH]; intros p w.
  - cbn [interp fst snd]. split; [repeat constructor; exact Hr|auto].
  - rewrite interp_vis.
    destruct (run_outs_within (fun x => interp os (k x)) (can_return e)
                okr okev (fst (handle os e p w)) (snd (handle os e p w)))
      as [Hl Hz].
    + intros x q w0 Hx. apply IH. exact Hx.
    + apply handle_can_return.
    + split; [exact Hl|]. intros z Hin. destruct (Hz z Hin) as [H|H];
        [exact (Hev X e p w z He H)|right; exact H].
Qed.

Lemma runs_within_bind {A B : Type} (okc : forall X, sys X -> Prop)
    (oka : A -> Prop) (okb : B -> Prop) (m : prog A) (f : A -> prog B) :
  runs_within okc oka m ->
  (forall a, oka a -> runs_within okc okb (f a)) ->
  runs_within okc okb (bind m f).
Proof.
  induction 1 as [r Hr|X e k He Hk IH]; intros Hf; cbn [bind].
  - apply Hf. exact Hr.
  - apply runs_within_vis; [exact He|]. intros x Hx. apply IH; assumption.
Qed.

Lemma runs_within_call {X : Type} (okc : forall X, sys X -> Prop)
    (e : sys X) :
  okc X e -> runs_within okc (can_return e) (call e).
Proof.
  intros He. apply runs_within_vis; [exact He|].
  intros x Hx. apply runs_within_ret. exact Hx.
Qed.

Lemma runs_within_stop {R : Type} (okc : forall X, sys X -> Prop)
    (okr : R -> Prop) (e : sys Empty_set) :
  okc _ e -> runs_within okc okr (@stop R e).
Proof.
  intros He. apply runs_within_vis; [exact He|]. intros [].
Qed.

Lemma runs_within_weaken {R : Type} (okc : forall X, sys X -> Prop)
    (okr okr' : R -> Prop) (m : prog R) :
  (forall r, okr r -> okr' r) ->
  runs_within okc okr m -> runs_within okc okr' m.
Proof.
  intros Hr. induction 1 as [r H|X e k He Hk IH].
  - apply runs_within_ret. auto.
  - apply runs_within_vis; auto.
Qed.

Lemma unreachable_text_differs :
  ("Welcome to shell" ++ nl)%string <> unreachable_text /\
  ("Current Working Directory: %s" ++ nl)%string <> unreachable_text.
Proof. split; discriminate. Qed.

Lemma cwd_within (okc : forall X, sys X -> Prop) :
  okc _ (Getcwd 256) ->
  okc _ (Perror "getcwd() error") ->
  (forall buf,
     okc _ (Printf ("Current Working Directory: %s" ++ nl) [PStr buf])) ->
  runs_within okc (fun _ : unit => True) Stage1Shell.cwd.
Proof.
  intros H1 H2 H3. unfold Stage1Shell.cwd.
  eapply runs_within_bind; [apply runs_within_call; exact H1|].
  intros [buf|] _.
  - eapply runs_within_weaken; [|apply runs_within_call; apply H3].
    intros; exact I.
  - eapply runs_within_weaken; [|apply runs_within_call; exact H2].
    intros; exact I.
Qed.

(** The child's side of a command, up to the two properties: execvp
    returns -1 or not at all, so what follows it is perror and exit 1. *)
Lemma child_side_within (okc : forall X, sys X -> Prop)
    (command0 : string) (command : list slot) :
  (forall X (e : sys X),
     match e with
     | Printf fmt _ => fmt <> unreachable_text
     | Exit code => code = 1
     | _ => True
     end -> okc X e) ->
  runs_within okc (fun _ : unit => True)
    (Stage1Shell.child_side command0 command).
Proof.
  intros Hok. unfold Stage1Shell.child_side.
  destruct (String.eqb command0 "cd").
  - eapply runs_within_bind; [apply runs_within_call; apply Hok; exact I|].
    intros result _.
    eapply runs_within_bind.
    + destruct (negb (result =? 0)).
      * eapply runs_within_weaken;
          [|apply runs_within_call; apply Hok; exact I].
        intros ? ?; exact I.
      * apply runs_within_ret. exact I.
    + intros _ _. apply cwd_within; try (apply Hok; exact I).
      intros buf. apply Hok. discriminate.
  - eapply runs_within_bind; [apply runs_within_call; apply Hok; exact I|].
    cbn [can_return]. intros r ->.
    change (-1 <? 0) with true. cbv match.
    apply (runs_within_bind okc (fun _ : unit => False)).
    + eapply runs_within_bind; [apply runs_within_call; apply Hok; exact I|].
      intros _ _. apply runs_within_stop. apply Hok. reflexivity.
    + intros a [].
Qed.

Lemma loop_body_within (okc : forall X, sys X -> Prop) :
  (forall X (e : sys X),
     match e with
     | Printf fmt _ => fmt <> unreachable_text
     | Exit code => code = 1
     | _ => True
     end -> okc X e) ->
  runs_within okc (fun _ : unit => True) Stage1Shell.loop_body.
Proof.
  intros Hok. unfold Stage1Shell.loop_body.
  eapply runs_within_bind; [apply runs_within_call; apply Hok; exact I|].
  intros [line|] _; [|apply runs_within_stop; apply Hok; exact I].
  destruct (Stage1Shell.get_input line) as [command|];
    [|apply runs_within_stop; apply Hok; exact I].
  destruct (nth 0 command Uninit) as [| |command0].
  - apply runs_within_stop; apply Hok; exact I.
  - apply runs_within_ret. exact I.
  - unfold Stage1Shell.run_command.
    eapply runs_within_bind; [apply runs_within_call; apply Hok; exact I|].
    intros child_pid _.
    apply (runs_within_bind okc (fun _ : unit => True)).
    + destruct (child_pid <? 0); [|apply runs_within_ret; exact I].
      eapply runs_within_bind; [apply runs_within_call; apply Hok; exact I|].
      intros _ _. apply runs_within_stop. apply Hok. reflexivity.
    + intros _ _. destruct (child_pid =? 0).
      * apply child_side_within. exact Hok.
      * eapply runs_within_weaken;
          [|apply runs_within_call; apply Hok; exact I].
        intros ? ?; exact I.
Qed.

Lemma main_within (okc : forall X, sys X -> Prop) (fuel : nat) :
  (forall X (e : sys X),
     match e with
     | Printf fmt _ => fmt <> unreachable_text
     | Exit code => code = 1
     | _ => True
     end -> okc X e) ->
  runs_within okc (fun _ : unit => True) (Stage1Shell.main fuel).
Proof.
  intros Hok. unfold Stage1Shell.main.
  eapply runs_within_bind;
    [apply runs_within_call; apply Hok; discriminate|].
  intros _ _. induction fuel as [|fuel IH]; cbn [Stage1Shell.shell_loop].
  - apply runs_within_ret. exact I.
  - eapply runs_within_bind; [apply loop_body_within; exact Hok|].
    intros _ _. exact IH.
Qed.

Lemma handle_logs_call {X : Type} (e : sys X) (p : proc) (w : world)
    (z : proc * event) :
  In z (log (snd (handle os e p w))) ->
  In z (log w) \/
  match e, snd z with
  | Printf fmt _, EPrintf fmt' _ => fmt' = fmt
  | Printf _ _, _ => False
  | Exit code, EExit code' => code' = code
  | Exit _, _ => False
  | _, EPrintf _ _ => False
  | _, EExit _ => False
  | _, _ => True
  end.
Proof.
  intros Hz.
  destruct e; cbn [handle] in Hz;
    repeat match type of Hz with
           | context [match ?c with _ => _ end] => destruct c
           end;
    cbn [snd] in Hz; rewrite in_log_emit in Hz;
    (destruct Hz as [Hz| ->]; [left; exact Hz|right; cbn; auto]).
Qed.

(** X4.  The printf that follows the call of execvp in the child is never
    reached: whatever is typed, on every host and for every number of
    turns, no process running the shell prints that text.  execvp returns
    only to report a failure, and the branch of the failure ends in
    exit. *)
Theorem shell_never_prints_unreachable (fuel : nat) (p : proc) (w : world) :
  only_new not_unreachable_event w
    (snd (interp os (Stage1Shell.main fuel) p w)).
Proof.
  destruct (runs_within_interp not_unreachable_printf (fun _ : unit => True)
              not_unreachable_event) with (m := Stage1Shell.main fuel)
              (p := p) (w := w) as [_ H]; [| |exact H].
  - intros X e p0 w0 z He Hin.
    destruct (handle_logs_call e p0 w0 z Hin) as [H|H]; [left; exact H|].
    right. destruct e; destruct (snd z); cbn in *; try exact I;
      try contradiction; congruence.
  - apply main_within. intros X e He. destruct e; cbn; try exact I. exact He.
Qed.

(** X5.  Every call of exit made while the shell runs, by the shell or by
    one of its children, is made with status 1. *)
Theorem shell_exits_with_1 (fuel : nat) (p : proc) (w : world) :
  only_new exit_event_1 w (snd (interp os (Stage1Shell.main fuel) p w)).
Proof.
  destruct (runs_within_interp exits_with_1 (fun _ : unit => True)
              exit_event_1) with (m := Stage1Shell.main fuel)
              (p := p) (w := w) as [_ H]; [| |exact H].
  - intros X e p0 w0 z He Hin.
    destruct (handle_logs_call e p0 w0 z Hin) as [H|H]; [left; exact H|].
    right. destruct e; destruct (snd z); cbn in *; try exact I;
      try contradiction; congruence.
  - apply main_within. intros X e He. destruct e; cbn; try exact I. exact He.
Qed.

Lemma handle_logs_silent {X : Type} (e : sys X) (p : proc) (w : world)
    (z : proc * event) :
  silent_call X e ->
  In z (log (snd (handle os e p w))) ->
  In z (log w) \/ silent_event (snd z).
Proof.
  intros He Hz.
  destruct e; cbn [silent_call] in He; try contradiction;
    cbn [handle] in Hz;
    repeat match type of Hz with
           | context [match ?c with _ => _ end] => destruct c
           end;
    cbn [snd] in Hz; rewrite in_log_emit in Hz;
    (destruct Hz as [Hz| ->]; [left; exact Hz|right; exact I]).
Qed.

Lemma pipe_child_side_silent (in_fd out_fd : Z)
    (cmd : option Pipe.command) :
  runs_within silent_call (fun _ : Z => True)
    (Pipe.child_side in_fd out_fd cmd).
Proof.
  unfold Pipe.child_side.
  apply (runs_within_bind silent_call (fun _ : unit => True)).
  { destruct (negb (in_fd =? 0)); [|apply runs_within_ret; exact I].
    cbn [bind call]. repeat (apply runs_within_vis; [exact I|intros ? _]).
    apply runs_within_ret. exact I. }
  intros _ _.
  apply (runs_within_bind silent_call (fun _ : unit => True)).
  { destruct (negb (out_fd =? 1)); [|apply runs_within_ret; exact I].
    cbn [bind call]. repeat (apply runs_within_vis; [exact I|intros ? _]).
    apply runs_within_ret. exact I. }
  intros _ _. destruct cmd as [c|].
  - apply runs_within_vis; [exact I|]. intros x _.
    apply runs_within_ret. exact I.
  - apply runs_within_stop. exact I.
Qed.

Lemma spawn_proc_silent (in_fd out_fd : Z) (cmd : option Pipe.command) :
  runs_within silent_call (fun _ : Z => True)
    (Pipe.spawn_proc in_fd out_fd cmd).
Proof.
  unfold Pipe.spawn_proc. cbn [bind call].
  apply runs_within_vis; [exact I|]. intros _ _.
  apply runs_within_vis; [exact I|]. intros pid _.
  destruct (pid =? 0); [apply pipe_child_side_silent|].
  apply runs_within_ret. exact I.
Qed.

Lemma fork_pipes_loop_silent (count : nat) (cmd : list Pipe.command) :
  forall (i in_fd : Z) (fd : Z * Z),
  runs_within silent_call (fun _ : Z * Z => True)
    (Pipe.fork_pipes_loop count cmd i in_fd fd).
Proof.
  induction count as [|count IH]; intros i in_fd fd;
    cbn [Pipe.fork_pipes_loop].
  - apply runs_within_ret. exact I.
  - cbn [bind call].
    apply runs_within_vis; [exact I|]. intros r _.
    apply runs_within_vis; [exact I|]. intros _ _.
    apply (runs_within_bind silent_call (fun _ : Z => True));
      [apply spawn_proc_silent|].
    intros _ _. cbn [bind].
    apply runs_within_vis; [exact I|]. intros _ _. apply IH.
Qed.

(** X6.  [fork_pipes] reports nothing: whatever the host does (pipe,
    fork, dup2, close or execvp failing), no process running it calls
    perror or exit. *)
Theorem fork_pipes_reports_nothing (fd0 : Z * Z) (n : Z)
    (cmd : list Pipe.command) (p : proc) (w : world) :
  only_new silent_event w (snd (interp os (Pipe.fork_pipes fd0 n cmd) p w)).
Proof.
  destruct (runs_within_interp silent_call (fun _ : Z => True) silent_event)
    with (m := Pipe.fork_pipes fd0 n cmd) (p := p) (w := w) as [_ H];
    [| |exact H].
  - intros X e p0 w0 z. apply handle_logs_silent.
  - unfold Pipe.fork_pipes.
    apply (runs_within_bind silent_call (fun _ : Z * Z => True));
      [apply fork_pipes_loop_silent|].
    intros [i in_fd] _.
    apply (runs_within_bind silent_call (fun _ : unit => True)).
    { destruct (negb (in_fd =? 0)); [|apply runs_within_ret; exact I].
      cbn [bind call]. apply runs_within_vis; [exact I|]. intros ? _.
      apply runs_within_ret. exact I. }
    intros _ _. destruct (Pipe.cmd_at cmd i) as [c|].
    + apply runs_within_vis; [exact I|]. intros x _.
      apply runs_within_ret. exact I.
    + apply runs_within_stop. exact I.
Qed.

Lemma runs_within_any {R : Type} (m : prog R) :
  runs_within any_call (fun _ : R => True) m.
Proof.
  induction m as [r|X e k IH].
  - apply runs_within_ret. exact I.
  - apply runs_within_vis; [exact I|]. intros x _. apply IH.
Qed.

(** X7.  Every process that comes back from [fork_pipes] comes back with
    -1: the only way out is the final execvp failing. *)
Theorem fork_pipes_returns_minus_1 (fd0 : Z * Z) (n : Z)
    (cmd : list Pipe.command) (p : proc) (w : world) :
  Forall (fun y => snd y = -1)
         (fst (interp os (Pipe.fork_pipes fd0 n cmd) p w)).
Proof.
  apply (runs_within_interp any_call (fun r : Z => r = -1) (fun _ => True)).
  - intros. right. exact I.
  - unfold Pipe.fork_pipes.
    eapply runs_within_bind; [apply runs_within_any|].
    intros [i in_fd] _.
    apply (runs_within_bind any_call (fun _ : unit => True));
      [apply runs_within_any|].
    intros _ _. destruct (Pipe.cmd_at cmd i) as [c|].
    + exact (runs_within_call any_call
               (Execvp (hd_error (Pipe.argv c)) (Pipe.argv c)) I).
    + apply runs_within_stop. exact I.
Qed.
End Within.

(* ================================================================== *)
(** ** The shell, turn by turn *)
(* ================================================================== *)

Section ShellTurns.
Variable os : os_model.

Lemma interp_bind_shell_cwd {R : Type} (f : unit -> prog R) (q : proc)
    (w : world) :
  interp os (bind Stage1Shell.cwd f) q w =
  interp os (f tt) q (after_cwd q (cwd_named os q) w).
Proof.
  unfold Stage1Shell.cwd, after_cwd, cwd_named. cbn [bind call].
  rewrite interp_vis. cbn [handle fst snd]. rewrite run_outs_one.
  destruct (getcwd_fails os (dir q) || (256 <? S (String.length (dir q)))%nat);
    cbn [bind call negb]; rewrite interp_vis; cbn [handle fst snd];
    rewrite run_outs_one; reflexivity.
Qed.

(** A turn of the loop up to the fork, with what is left of the loop in
    [k]: the child runs its side then [k], then the shell runs
    waitpid then [k]. *)
Lemma shell_turn_forks {R : Type} (k : unit -> prog R) (p : proc) (w : world)
    (line : string) (rest : list string)
    (command0 : string) (args : list string) :
  input w = line :: rest ->
  words " " line = command0 :: args ->
  (List.length args <= 6)%nat ->
  fork_fails os (nfork w) = false ->
  exists junk,
  let command := Ptr command0 :: map Ptr args ++ Null :: junk in
  let c := Z.pos (next_pid w) in
  let rc := interp os (bind (Stage1Shell.child_side command0 command) k)
              (set_pid p c) (after_fork p line rest w) in
  interp os (bind Stage1Shell.loop_body k) p w =
  (fst rc ++ fst (interp os (bind (call (Waitpid c)) k) p (snd rc)),
   snd (interp os (bind (call (Waitpid c)) k) p (snd rc))).
Proof.
  intros Hin Hw Hlen Hf.
  destruct (get_input_tokens _ _ _ Hw Hlen) as [junk Hg].
  exists junk. cbv zeta.
  unfold Stage1Shell.loop_body. cbn [bind call].
  rewrite interp_vis. cbn [handle fst snd]. rewrite Hin. cbn [hd_error tl].
  rewrite run_outs_one, Hg. cbn [nth].
  unfold Stage1Shell.run_command. cbn [bind call].
  rewrite interp_vis. cbn [handle emit set_input nfork]. rewrite Hf.
  cbn [fst snd]. rewrite run_outs_two.
  cbn [next_pid Z.ltb Z.eqb Z.compare bind call]. reflexivity.
Qed.

(** X8.  A turn of the loop on a command that is not cd and that execvp
    cannot run, fork succeeding: the child prints the diagnostic named
    after the command and exits with status 1, the shell's waitpid
    returns, and the shell goes on with the next turn, in the state it had,
    on the lines that remain. *)
Theorem shell_command_not_found (p : proc) (w : world)
    (line : string) (rest : list string) (fuel : nat)
    (command0 : string) (args : list string) :
  input w = line :: rest ->
  words " " line = command0 :: args ->
  (List.length args <= 6)%nat ->
  String.eqb command0 "cd" = false ->
  fork_fails os (nfork w) = false ->
  exec_ok os (dir p) command0 = false ->
  let c := set_pid p (Z.pos (next_pid w)) in
  interp os (Stage1Shell.shell_loop (S fuel)) p w =
  interp os (Stage1Shell.shell_loop fuel) p
    (emit p (EWaitpid (pid c))
       (emit c (EExit 1)
          (emit c (EPerror command0)
             (emit c (EExecvp (Some command0) (command0 :: args) (Some (-1)))
                (after_fork p line rest w))))).
Proof.
  intros Hin Hw Hlen Hcd Hf He c.
  cbn [Stage1Shell.shell_loop].
  destruct (shell_turn_forks (fun _ => Stage1Shell.shell_loop fuel)
              p w line rest command0 args Hin Hw Hlen Hf) as [junk E].
  cbv zeta in E. rewrite E. clear E.
  unfold Stage1Shell.child_side. rewrite Hcd.
  change (Stage1Shell.argv_of (Ptr command0 :: map Ptr args ++ Null :: junk))
    with (command0 :: Stage1Shell.argv_of (map Ptr args ++ Null :: junk)).
  rewrite argv_of_words.
  cbn [bind call]. rewrite interp_vis. cbn [handle dir set_pid].
  rewrite He. cbn [fst snd]. rewrite run_outs_one.
  change (-1 <? 0) with true. cbv match. cbn [bind call stop].
  rewrite interp_vis. cbn [handle fst snd]. rewrite run_outs_one.
  rewrite interp_vis. cbn [handle fst snd]. rewrite run_outs_nil.
  cbn [fst snd app]. rewrite interp_vis.
  cbn [handle]. rewrite !terminated_emit.
  cbn [pid set_pid is_terminal]. rewrite Z.eqb_refl, !orb_true_r.
  cbn [fst snd]. rewrite run_outs_one.
  destruct (interp os (Stage1Shell.shell_loop fuel) p _). reflexivity.
Qed.

(** X9.  A turn of the loop on a command that is not cd and that execvp
    can run, fork succeeding: the child becomes the program, with the
    tokens of the line as its argument vector, the shell waits for it and
    goes on with the next turn, in the state it had, on the lines that
    remain. *)
Theorem shell_runs_command (p : proc) (w : world)
    (line : string) (rest : list string) (fuel : nat)
    (command0 : string) (args : list string) :
  input w = line :: rest ->
  words " " line = command0 :: args ->
  (List.length args <= 6)%nat ->
  String.eqb command0 "cd" = false ->
  fork_fails os (nfork w) = false ->
  exec_ok os (dir p) command0 = true ->
  let c := set_pid p (Z.pos (next_pid w)) in
  interp os (Stage1Shell.shell_loop (S fuel)) p w =
  interp os (Stage1Shell.shell_loop fuel) p
    (emit p (EWaitpid (pid c))
       (emit c (EExecvp (Some command0) (command0 :: args) None)
          (after_fork p line rest w))).
Proof.
  intros Hin Hw Hlen Hcd Hf He c.
  cbn [Stage1Shell.shell_loop].
  destruct (shell_turn_forks (fun _ => Stage1Shell.shell_loop fuel)
              p w line rest command0 args Hin Hw Hlen Hf) as [junk E].
  cbv zeta in E. rewrite E. clear E.
  unfold Stage1Shell.child_side. rewrite Hcd.
  change (Stage1Shell.argv_of (Ptr command0 :: map Ptr args ++ Null :: junk))
    with (command0 :: Stage1Shell.argv_of (map Ptr args ++ Null :: junk)).
  rewrite argv_of_words.
  cbn [bind call]. rewrite interp_vis. cbn [handle dir set_pid].
  rewrite He. cbn [fst snd]. rewrite run_outs_nil.
  cbn [fst snd app]. rewrite interp_vis.
  cbn [handle]. rewrite !terminated_emit.
  cbn [pid set_pid is_terminal]. rewrite Z.eqb_refl, !orb_true_r.
  cbn [fst snd]. rewrite run_outs_one.
  destruct (interp os (Stage1Shell.shell_loop fuel) p _). reflexivity.
Qed.

(** The cd branch, with what follows it in [k]. *)
Lemma child_side_cd_then {R : Type} (k : unit -> prog R) (q : proc)
    (w : world) (args : list string) (junk : list slot) :
  interp os (bind (Stage1Shell.child_side "cd"
                     (Ptr "cd" :: map Ptr args ++ Null :: junk)) k) q w =
  interp os (k tt) (set_dir q (cd_target os q args)) (after_cd os q args w).
Proof.
  unfold Stage1Shell.child_side.
  change (String.eqb "cd" "cd") with true. cbv match.
  assert (Hp : Stage1Shell.ptr_of
                 (nth 1 (Ptr "cd" :: map Ptr args ++ Null :: junk) Uninit)
               = hd_error args)
    by (destruct args; reflexivity).
  rewrite Hp. cbn [bind call]. rewrite interp_vis.
  unfold after_cd, cd_target.
  assert (Hq : set_dir q (dir q) = q) by (destruct q; reflexivity).
  destruct args as [|d args]; cbn [handle hd_error].
  - cbn [fst snd]. rewrite run_outs_one.
    change (negb (-1 =? 0)) with true. cbv match. cbn [bind call].
    rewrite interp_vis. cbn [handle fst snd]. rewrite run_outs_one.
    rewrite Hq.
    apply (interp_bind_shell_cwd k).
  - destruct (chdir_os os (dir q) d) as [d'|]; cbn [fst snd];
      rewrite run_outs_one.
    + change (negb (0 =? 0)) with false. cbv match. cbn [bind].
      apply (interp_bind_shell_cwd k).
    + change (negb (-1 =? 0)) with true. cbv match. cbn [bind call].
      rewrite interp_vis. cbn [handle fst snd]. rewrite run_outs_one.
      rewrite Hq.
      apply (interp_bind_shell_cwd k).
Qed.

Lemma terminated_all_defined (c : Z) (l : list (proc * event)) :
  all_defined l = true -> terminated c l = has_ended c l.
Proof.
  unfold all_defined, terminated, has_ended.
  induction l as [|[q e] l IH]; [reflexivity|].
  cbn [forallb existsb fst snd]. intros H.
  apply andb_true_iff in H. destruct H as [He Hl].
  rewrite (IH Hl). destruct e; try reflexivity. discriminate He.
Qed.

(** X11.  A turn of the loop on a cd command, fork succeeding, for every
    argument list and whether chdir succeeds or not.  The child runs
    chdir and [cwd] and then the rest of the loop itself, in the directory
    chdir left it in, on the lines that remain.  Where that run of the
    child takes no step whose behaviour is undefined, the shell runs its
    next turn exactly when the child has exited or become a program by
    then; when the child has done neither, the shell stays blocked in
    waitpid. *)
Theorem cd_nests_shell (p : proc) (w : world)
    (line : string) (rest : list string) (fuel : nat) (args : list string) :
  input w = line :: rest ->
  words " " line = "cd" :: args ->
  (List.length args <= 6)%nat ->
  fork_fails os (nfork w) = false ->
  let c := Z.pos (next_pid w) in
  let child := set_dir (set_pid p c) (cd_target os p args) in
  let w1 := after_cd os (set_pid p c) args (after_fork p line rest w) in
  let rc := interp os (Stage1Shell.shell_loop fuel) child w1 in
  all_defined (log (snd rc)) = true ->
  input w1 = rest /\
  interp os (Stage1Shell.shell_loop (S fuel)) p w =
  if has_ended c (log (snd rc))
  then (fst rc ++
        fst (interp os (Stage1Shell.shell_loop fuel) p
               (emit p (EWaitpid c) (snd rc))),
        snd (interp os (Stage1Shell.shell_loop fuel) p
               (emit p (EWaitpid c) (snd rc))))
  else (fst rc, emit p (EBlocked c) (snd rc)).
Proof.
  intros Hin Hw Hlen Hf c child w1 rc Hdef.
  rewrite <- (terminated_all_defined c _ Hdef). split.
  - unfold w1, after_cd, after_cwd.
    destruct args as [|d args];
      [|destruct (chdir_os os (dir (set_pid p c)) d)];
      destruct (cwd_named os _); reflexivity.
  - cbn [Stage1Shell.shell_loop].
    destruct (shell_turn_forks (fun _ => Stage1Shell.shell_loop fuel)
                p w line rest "cd" args Hin Hw Hlen Hf) as [junk E].
    cbv zeta in E. rewrite E. clear E.
    rewrite child_side_cd_then.
    fold c. change (cd_target os (set_pid p c) args)
      with (cd_target os p args).
    fold child. fold w1. fold rc.
    cbn [bind call]. rewrite interp_vis. cbn [handle].
    destruct (terminated c (log (snd rc))); cbn [fst snd].
    + rewrite run_outs_one. reflexivity.
    + rewrite run_outs_nil. cbn [fst snd]. rewrite app_nil_r. reflexivity.
Qed.

End ShellTurns.

(** X9 on the lines ls -la and pwd. *)
Lemma shell_runs_command_witness :
  let p := proc0 in
  let w := boot ["ls -la"; "pwd"] in
  let c := set_pid p 101 in
  interp host_ok (Stage1Shell.shell_loop 2) p w =
  interp host_ok (Stage1Shell.shell_loop 1) p
    (emit p (EWaitpid 101)
       (emit c (EExecvp (Some "ls") ["ls"; "-la"] None)
          (after_fork p "ls -la" ["pwd"] w))).
Proof.
  apply (shell_runs_command host_ok proc0 (boot ["ls -la"; "pwd"])
           "ls -la" ["pwd"] 1 "ls" ["-la"]); try reflexivity.
  cbn [List.length]. lia.
Defined.

(** X8 on a host with no program called nosuch. *)
Lemma shell_command_not_found_witness :
  let p := proc0 in
  let w := boot ["nosuch -x"; "pwd"] in
  let c := set_pid p 101 in
  interp host_missing (Stage1Shell.shell_loop 2) p w =
  interp host_missing (Stage1Shell.shell_loop 1) p
    (emit p (EWaitpid 101)
       (emit c (EExit 1)
          (emit c (EPerror "nosuch")
             (emit c (EExecvp (Some "nosuch") ["nosuch"; "-x"] (Some (-1)))
                (after_fork p "nosuch -x" ["pwd"] w))))).
Proof.
  apply (shell_command_not_found host_missing proc0
           (boot ["nosuch -x"; "pwd"]) "nosuch -x" ["pwd"] 1
           "nosuch" ["-x"]); try reflexivity.
  cbn [List.length]. lia.
Defined.

(** X11 on the lines cd /tmp and ls. *)
Lemma cd_nests_shell_witness :
  let p := proc0 in
  let w := boot ["cd /tmp"; "ls"] in
  let child := set_dir (set_pid p 101) "/tmp" in
  let w1 := after_cd host_ok (set_pid p 101) ["/tmp"]
              (after_fork p "cd /tmp" ["ls"] w) in
  let rc := interp host_ok (Stage1Shell.shell_loop 1) child w1 in
  input w1 = ["ls"] /\
  interp host_ok (Stage1Shell.shell_loop 2) p w =
  if has_ended 101 (log (snd rc))
  then (fst rc ++
        fst (interp host_ok (Stage1Shell.shell_loop 1) p
               (emit p (EWaitpid 101) (snd rc))),
        snd (interp host_ok (Stage1Shell.shell_loop 1) p
               (emit p (EWaitpid 101) (snd rc))))
  else (fst rc, emit p (EBlocked 101) (snd rc)).
Proof.
  apply (cd_nests_shell host_ok proc0 (boot ["cd /tmp"; "ls"])
           "cd /tmp" ["ls"] 1 ["/tmp"]); try reflexivity.
  cbn [List.length]. lia.
Defined.

(* ================================================================== *)
(** ** The descriptor tables of a pipeline *)
(* ================================================================== *)

Lemma became_app (l1 l2 : list (proc * event)) :
  became (l1 ++ l2) = became l1 ++ became l2.
Proof.
  induction l1 as [|[q e] l1 IH]; [reflexivity|].
  cbn [app became]. destruct e; try exact IH.
  destruct r; [exact IH|]. cbn [app]. rewrite IH. reflexivity.
Qed.

Lemma became_emit (q : proc) (e : event) (w : world) :
  became (log (emit q e w)) = became (log w) ++ became [(q, e)].
Proof. cbn [log emit]. apply became_app. Qed.

Ltac nat_cases :=
  repeat match goal with
  | |- context [(?a =? ?b)%nat] => destruct (Nat.eqb_spec a b)
  | H : context [(?a =? ?b)%nat] |- _ => destruct (Nat.eqb_spec a b)
  end.

Section PipelineTables.

Variable os : os_model.

Hypothesis fork_always : forall k, fork_fails os k = false.
Hypothesis pipe_always : forall k, pipe_fails os k = false.

Lemma child_side_table {R : Type} (g : Z -> prog R)
    (q : proc) (w : world) (m out : nat) (cur wobj : fobj)
    (c : Pipe.command) :
  resolves os (dir q) c ->
  m <> 1%nat -> out <> 0%nat -> out <> 1%nat -> out <> m ->
  fd_get (fds q) m = Some cur ->
  fd_get (fds q) out = Some wobj ->
  exists w' q',
    interp os (bind (Pipe.child_side (Z.of_nat m) (Z.of_nat out) (Some c)) g)
      q w = ([], w') /\
    became (log w') = became (log w) ++ [q'] /\
    pid q' = pid q /\
    (forall k, fd_get (fds q') k = child_fd (fds q) m out cur wobj k) /\
    next_pid w' = next_pid w /\ next_pipe w' = next_pipe w.
Proof.
  intros Hargv Hm1 Ho0 Ho1 Hom Hcur Hout.
  unfold Pipe.child_side.
  change 0 with (Z.of_nat 0). change 1 with (Z.of_nat 1).
  rewrite !of_nat_eqb.
  rewrite (proj2 (Nat.eqb_neq out 1) Ho1). cbn [negb].
  assert (Hexec : forall (q' : proc) (w0 : world) (k : Z -> prog R),
    dir q' = dir q ->
    exists w',
      interp os (Vis (Execvp (hd_error (Pipe.argv c)) (Pipe.argv c)) k)
        q' w0 = ([], w') /\
      became (log w') = became (log w0) ++ [q'] /\
      next_pid w' = next_pid w0 /\ next_pipe w' = next_pipe w0).
  { intros q' w0 k Hdir. rewrite interp_vis.
    unfold resolves in Hargv.
    destruct (Pipe.argv c) as [|a0 rest] eqn:Ea; [contradiction|].
    cbn [hd_error handle]. rewrite Hdir, Hargv. cbn [fst snd].
    rewrite run_outs_nil. eexists. split; [reflexivity|].
    rewrite became_emit. cbn [became]. repeat split; reflexivity. }
  destruct m as [|m].
  - cbn [Nat.eqb negb bind call].
    rewrite (interp_dup2 os _ _ _ _ _ _ Hout).
    rewrite (interp_close os _ _ _ out wobj)
      by (cbn [fds set_fds]; fd_simpl; exact Hout).
    cbn [bind].
    match goal with
    | |- context [interp os (Vis (Execvp _ _) ?k) ?q' ?w0] =>
        destruct (Hexec q' w0 k) as (w' & E & Hs & Hp1 & Hp2);
          [reflexivity|exists w', q']
    end.
    split; [exact E|].
    rewrite Hs, !became_emit. cbn [became]. rewrite !app_nil_r.
    split; [reflexivity|]. split; [reflexivity|].
    split; [|split; [rewrite Hp1|rewrite Hp2]; reflexivity].
    intros k. cbn [fds set_fds]. unfold child_fd.
    nat_cases; subst; fd_simpl; try reflexivity; try congruence; try lia.
  - cbn [Nat.eqb negb bind call].
    rewrite (interp_dup2 os _ _ _ _ _ _ Hcur).
    rewrite (interp_close os _ _ _ (S m) cur)
      by (cbn [fds set_fds]; fd_simpl; exact Hcur).
    cbn [bind].
    rewrite (interp_dup2 os _ _ _ out 1%nat wobj)
      by (cbn [fds set_fds]; fd_simpl; exact Hout).
    rewrite (interp_close os _ _ _ out wobj)
      by (cbn [fds set_fds]; fd_simpl; exact Hout).
    cbn [bind].
    match goal with
    | |- context [interp os (Vis (Execvp _ _) ?k) ?q' ?w0] =>
        destruct (Hexec q' w0 k) as (w' & E & Hs & Hp1 & Hp2);
          [reflexivity|exists w', q']
    end.
    split; [exact E|].
    rewrite Hs, !became_emit. cbn [became]. rewrite !app_nil_r.
    split; [reflexivity|]. split; [reflexivity|].
    split; [|split; [rewrite Hp1|rewrite Hp2]; reflexivity].
    intros k. cbn [fds set_fds]. unfold child_fd.
    nat_cases; subst; fd_simpl; try reflexivity; try congruence; try lia.
Qed.

Lemma spawn_proc_table {R : Type} (g : Z -> prog R)
    (p : proc) (w : world) (m out : nat) (cur wobj : fobj)
    (c : Pipe.command) :
  resolves os (dir p) c ->
  m <> 1%nat -> out <> 0%nat -> out <> 1%nat -> out <> m ->
  fd_get (fds p) m = Some cur ->
  fd_get (fds p) out = Some wobj ->
  exists w' q',
    interp os (bind (Pipe.spawn_proc (Z.of_nat m) (Z.of_nat out) (Some c)) g)
      p w = interp os (g (Z.pos (next_pid w))) p w' /\
    became (log w') = became (log w) ++ [q'] /\
    pid q' = Z.pos (next_pid w) /\
    (forall k, fd_get (fds q') k = child_fd (fds p) m out cur wobj k) /\
    next_pid w' = Pos.succ (next_pid w) /\ next_pipe w' = next_pipe w.
Proof.
  intros Hargv Hm1 Ho0 Ho1 Hom Hcur Hout.
  unfold Pipe.spawn_proc. cbn [bind call].
  rewrite interp_vis. cbn [handle fst snd]. rewrite run_outs_one.
  rewrite interp_vis. cbn [handle nfork emit]. rewrite fork_always.
  cbn [fst snd]. rewrite run_outs_two.
  cbn [Z.eqb next_pid emit bind].
  match goal with
  | |- context [interp os (bind (Pipe.child_side _ _ _) ?g0) ?q ?w0] =>
      destruct (child_side_table g0 q w0 m out cur wobj c)
        as (w' & q' & E & Hs & Hpid & Hfd & Hp1 & Hp2); auto
  end.
  rewrite E. cbn [fst snd app].
  exists w', q'.
  split; [destruct (interp os (g (Z.pos (next_pid w))) p w'); reflexivity|].
  rewrite Hs, Hpid, Hp1, Hp2.
  cbn [log new_pid count_fork emit]. rewrite !became_app.
  cbn [became app pid set_pid next_pid next_pipe].
  rewrite !app_nil_r. repeat split; try reflexivity. exact Hfd.
Qed.

Lemma fork_pipes_loop_tables {R : Type} (cmd : list Pipe.command)
    (i0 o0 : fobj) (f : Z * Z -> prog R) (count : nat) :
  forall (i m : nat) (cur : fobj) (p : proc) (w : world) (fd : Z * Z),
  fd_get (fds p) 0 = Some i0 ->
  fd_get (fds p) 1 = Some o0 ->
  m <> 1%nat ->
  fd_get (fds p) m = Some cur ->
  (forall j, (j < count)%nat ->
     exists c, nth_error cmd (i + j) = Some c /\ resolves os (dir p) c) ->
  exists p' w' m' qs,
    interp os
      (bind (Pipe.fork_pipes_loop count cmd (Z.of_nat i) (Z.of_nat m) fd) f)
      p w =
    interp os (f (Z.of_nat (i + count), Z.of_nat m')) p' w' /\
    pid p' = pid p /\
    dir p' = dir p /\
    m' <> 1%nat /\
    fd_get (fds p') m' =
      Some (match count with
            | O => cur
            | S c => PipeR (next_pipe w + c)
            end) /\
    (forall k o, fd_get (fds p) k = Some o -> fd_get (fds p') k = Some o) /\
    (forall k o, fd_get (fds p') k = Some o ->
       fd_get (fds p) k = Some o \/
       exists i', (i' < count)%nat /\ o = PipeR (next_pipe w + i')) /\
    (forall i', (i' < count)%nat ->
       exists k, k <> 0%nat /\ k <> 1%nat /\
         fd_get (fds p') k = Some (PipeR (next_pipe w + i'))) /\
    became (log w') = became (log w) ++ qs /\
    List.length qs = count /\
    (forall j q, nth_error qs j = Some q -> spawned_stage p w j q) /\
    next_pipe w' = (next_pipe w + count)%nat.
Proof.
  induction count as [|count IH]; intros i m cur p w fd H0 H1 Hm1 Hcur Hcmd.
  - exists p, w, m, []. cbn [Pipe.fork_pipes_loop bind].
    rewrite !app_nil_r, !Nat.add_0_r.
    split; [reflexivity|]. split; [reflexivity|]. split; [reflexivity|].
    split; [exact Hm1|]. split; [exact Hcur|]. split; [auto|].
    split; [auto|]. split; [intros i' Hi; lia|]. split; [reflexivity|].
    split; [reflexivity|]. split; [|reflexivity].
    intros [|j] q Hq; discriminate.
  - cbn [Pipe.fork_pipes_loop bind call].
    rewrite interp_vis. cbn [handle]. rewrite pipe_always. cbn [fst snd].
    rewrite run_outs_one.
    set (r := fd_alloc (fds p)).
    set (t1 := fd_put (fds p) r (Some (PipeR (next_pipe w)))).
    set (wr := fd_alloc t1).
    set (t2 := fd_put t1 wr (Some (PipeW (next_pipe w)))).
    assert (Hrfree : fd_get (fds p) r = None) by apply fd_alloc_free.
    assert (Hwfree : fd_get t1 wr = None) by apply fd_alloc_free.
    assert (Hr0 : r <> 0%nat) by (apply (fd_alloc_not_open _ _ _ H0)).
    assert (Hr1 : r <> 1%nat) by (apply (fd_alloc_not_open _ _ _ H1)).
    assert (Hrm : r <> m) by (apply (fd_alloc_not_open _ _ _ Hcur)).
    assert (Hwr : wr <> r).
    { apply (fd_alloc_not_open t1 r (PipeR (next_pipe w))).
      unfold t1. fd_simpl. reflexivity. }
    assert (Hwopen : forall k o, fd_get (fds p) k = Some o -> wr <> k).
    { intros k o Hk. apply (fd_alloc_not_open t1 k o).
      unfold t1. rewrite fd_get_put_ne; [exact Hk|].
      intros E. subst k. congruence. }
    assert (Hw0 : wr <> 0%nat) by (apply (Hwopen _ _ H0)).
    assert (Hw1 : wr <> 1%nat) by (apply (Hwopen _ _ H1)).
    assert (Hwm : wr <> m) by (apply (Hwopen _ _ Hcur)).
    assert (Ht2 : forall k, k <> r -> k <> wr ->
              fd_get t2 k = fd_get (fds p) k).
    { intros k Hkr Hkw. unfold t2, t1. fd_simpl. reflexivity. }
    rewrite interp_vis. cbn [handle fst snd]. rewrite run_outs_one.
    rewrite interp_bind_assoc.
    destruct (Hcmd 0%nat) as (c & Hc & Hargv); [lia|].
    rewrite Nat.add_0_r in Hc.
    rewrite cmd_at_of_nat, Hc.
    match goal with
    | |- context [interp os (bind (Pipe.spawn_proc _ _ _) ?g) ?q ?w0] =>
        destruct (spawn_proc_table g q w0 m wr cur (PipeW (next_pipe w)) c)
          as (w1 & q0 & E & Hs & Hqpid & Hqfd & Hp1 & Hp2); auto
    end.
    { cbn [fds set_fds]. rewrite Ht2 by congruence. exact Hcur. }
    { cbn [fds set_fds]. unfold t2. fd_simpl. reflexivity. }
    rewrite E. clear E. cbn [bind call].
    rewrite (interp_close os _ _ _ wr (PipeW (next_pipe w)))
      by (cbn [fds set_fds]; unfold t2; fd_simpl; reflexivity).
    replace (Z.of_nat i + 1) with (Z.of_nat (S i)) by lia.
    set (t3 := fd_put t2 wr None).
    assert (Ht3 : forall k, k <> r -> fd_get t3 k = fd_get (fds p) k).
    { intros k Hkr. unfold t3.
      destruct (Nat.eq_dec k wr) as [->|Hkw].
      - fd_simpl. unfold t1 in Hwfree.
        rewrite fd_get_put_ne in Hwfree by congruence. congruence.
      - fd_simpl. apply Ht2; assumption. }
    assert (Ht3r : fd_get t3 r = Some (PipeR (next_pipe w))).
    { unfold t3, t2, t1. fd_simpl. reflexivity. }
    match goal with
    | |- context [interp os (bind (Pipe.fork_pipes_loop _ _ _ _ ?fd1) f)
                    ?q ?w0] =>
        destruct (IH (S i) r (PipeR (next_pipe w)) q w0 fd1)
          as (p' & w' & m' & qs & E & Hpid & Hdir & Hm' & Hcur' & Hmono
              & Hnew & Hreads & Hb & Hlen & Hqs & Hp2')
    end.
    { cbn [fds set_fds]. fold t3. rewrite Ht3 by congruence. exact H0. }
    { cbn [fds set_fds]. fold t3. rewrite Ht3 by congruence. exact H1. }
    { exact Hr1. }
    { cbn [fds set_fds]. exact Ht3r. }
    { intros j Hj. destruct (Hcmd (S j)) as (c' & Hc' & Hargv'); [lia|].
      exists c'. split; [|exact Hargv'].
      replace (S i + j)%nat with (i + S j)%nat by lia. exact Hc'. }
    exists p', w', m', (q0 :: qs).
    cbn [next_pid next_pipe emit new_pipe count_pipe pid fds set_fds log]
      in *.
    fold t3 in Hmono, Hnew.
    rewrite Hp2 in *.
    replace (i + S count)%nat with (S i + count)%nat by lia.
    split; [exact E|]. split; [exact Hpid|]. split; [exact Hdir|].
    split; [exact Hm'|].
    split.
    { rewrite Hcur'. f_equal. destruct count; f_equal; lia. }
    split.
    { intros k o Hk. apply Hmono. rewrite Ht3; [exact Hk|]. congruence. }
    split.
    { intros k o Hk. destruct (Hnew k o Hk) as [Hk1|(i' & Hi' & ->)].
      - destruct (Nat.eq_dec k r) as [->|Hkr].
        + right. exists 0%nat. split; [lia|].
          rewrite Ht3r in Hk1. rewrite Nat.add_0_r. congruence.
        + left. rewrite <- Ht3; assumption.
      - right. exists (S i'). split; [lia|]. f_equal. lia. }
    split.
    { intros [|i'] Hi'.
      - exists r. rewrite Nat.add_0_r. auto.
      - destruct (Hreads i') as (k & Hk0 & Hk1 & Hk); [lia|].
        exists k. replace (next_pipe w + S i')%nat
          with (S (next_pipe w) + i')%nat by lia. auto. }
    split.
    { rewrite Hb, !became_app, Hs, !became_app.
      cbn [became]. rewrite !app_nil_r, <- app_assoc. reflexivity. }
    split; [cbn [List.length]; lia|].
    split; [|lia].
    intros [|j] q Hq; cbn [nth_error] in Hq.
    + injection Hq as <-. unfold spawned_stage.
      cbn [fds set_fds] in Hqfd.
      split; [rewrite Hqpid; lia|].
      split.
      { intros k o Hk0 Hk1 Hk.
        destruct (Nat.eq_dec k m) as [->|Hkm].
        - exists 0%nat. rewrite Hqfd. unfold child_fd.
          nat_cases; try lia; congruence.
        - exists k. rewrite Hqfd. unfold child_fd.
          assert (wr <> k) by (apply (Hwopen _ _ Hk)).
          nat_cases; try lia; try congruence.
          rewrite Ht2 by congruence. exact Hk. }
      split.
      { intros i' Hi'. assert (i' = 0%nat) by lia. subst i'.
        exists r. rewrite Hqfd. unfold child_fd.
        nat_cases; try lia; try congruence.
        rewrite Nat.add_0_r. unfold t2, t1. fd_simpl. reflexivity. }
      intros k x Hk. rewrite Hqfd in Hk. unfold child_fd in Hk.
      nat_cases; subst.
      * left. split; [reflexivity|]. rewrite Nat.add_0_r. congruence.
      * discriminate.
      * right. split; [assumption|]. exists m. congruence.
      * discriminate.
      * right. split; [assumption|].
        destruct (Nat.eq_dec k r) as [->|Hkr].
        -- unfold t2, t1 in Hk. revert Hk. fd_simpl. discriminate.
        -- exists k. rewrite <- Ht2; assumption.
    + destruct (Hqs j q Hq) as (Hpidq & Hinh & Hrd & Hwe).
      cbn [next_pid next_pipe emit new_pipe count_pipe pid fds set_fds log]
        in *.
      fold t3 in Hinh, Hwe. rewrite Hp1 in Hpidq. rewrite Hp2 in Hrd, Hwe.
      unfold spawned_stage.
      split; [rewrite Hpidq, Pos2Z.inj_succ; lia|].
      split.
      { intros k o Hk0 Hk1 Hk. apply (Hinh k o Hk0 Hk1).
        rewrite Ht3; [exact Hk|]. congruence. }
      split.
      { intros [|i'] Hi'.
        - rewrite Nat.add_0_r. apply (Hinh r _ Hr0 Hr1 Ht3r).
        - replace (next_pipe w + S i')%nat
            with (S (next_pipe w) + i')%nat by lia.
          apply Hrd. lia. }
      intros k x Hk. destruct (Hwe k x Hk) as [[-> ->]|[Hk1 [k' Hk']]].
      * left. split; [reflexivity|lia].
      * right. split; [exact Hk1|].
        destruct (Nat.eq_dec k' r) as [->|Hkr].
        -- rewrite Ht3r in Hk'. discriminate.
        -- exists k'. rewrite <- Ht3; assumption.
Qed.


Lemma fork_pipes_tables (fd0 : Z * Z) (cmd : list Pipe.command)
    (p : proc) (w : world) :
  cmd <> [] ->
  Forall (resolves os (dir p)) cmd ->
  fd_get (fds p) 0 <> None ->
  fd_get (fds p) 1 <> None ->
  let n := List.length cmd in
  exists qs,
    became (log (snd (interp os (Pipe.fork_pipes fd0 (Z.of_nat n) cmd) p w)))
      = became (log w) ++ qs /\
    List.length qs = n /\
    forall j q, nth_error qs j = Some q -> stage_tables p w n j q.
Proof.
  intros Hne Hargv H0 H1 n.
  destruct (fd_get (fds p) 0) as [i0|] eqn:E0; [clear H0|congruence].
  destruct (fd_get (fds p) 1) as [o0|] eqn:E1; [clear H1|congruence].
  assert (Hn : (1 <= n)%nat).
  { unfold n. destruct cmd; [congruence|simpl; lia]. }
  assert (Hcmd : forall j, (j < n)%nat ->
            exists c, nth_error cmd j = Some c /\ resolves os (dir p) c).
  { intros j Hj. destruct (nth_error cmd j) as [c|] eqn:Ec.
    - exists c. split; [reflexivity|].
      rewrite Forall_forall in Hargv. apply Hargv.
      apply (nth_error_In _ _ Ec).
    - apply nth_error_None in Ec. unfold n in Hj. lia. }
  unfold Pipe.fork_pipes.
  replace (Z.to_nat (Z.of_nat n - 1)) with (n - 1)%nat by lia.
  match goal with
  | |- context [interp os (bind (Pipe.fork_pipes_loop _ _ _ _ _) ?f) _ _] =>
      destruct (fork_pipes_loop_tables cmd i0 o0 f (n - 1) 0%nat 0%nat i0
                  p w fd0)
        as (p' & w' & m' & qs & E & Hpid & Hdir & Hm' & Hcur' & Hmono
            & Hnew & Hreads & Hb & Hlen & Hqs & Hp2'); auto
  end.
  { intros j Hj. apply Hcmd. lia. }
  cbn [Z.of_nat] in E. rewrite E. clear E. cbn [Nat.add].
  destruct (Hcmd (n - 1)%nat) as (c & Hc & Hargc); [lia|].
  rewrite cmd_at_of_nat, Hc.
  assert (Hexec : forall (q : proc) (k : Z -> prog Z) (w0 : world),
    dir q = dir p ->
    became (log w0) = became (log w') ->
    became (log (snd (interp os
      (Vis (Execvp (hd_error (Pipe.argv c)) (Pipe.argv c)) k) q w0)))
    = became (log w) ++ qs ++ [q]).
  { intros q k w0 Hqd Hw0. rewrite interp_vis.
    unfold resolves in Hargc.
    destruct (Pipe.argv c) as [|a0 rest] eqn:Ea; [contradiction|].
    cbn [hd_error handle]. rewrite Hqd, Hargc. cbn [fst snd].
    rewrite run_outs_nil. cbn [snd]. rewrite became_emit, Hw0, Hb.
    cbn [became]. rewrite <- app_assoc. reflexivity. }
  assert (Hfinal : exists qf,
    became (log (snd (interp os
      (x <- (if negb (Z.of_nat m' =? 0)
             then call (Dup2 (Z.of_nat m') 0);; Ret tt else Ret tt);;
       (fun _ : unit =>
          call (Execvp (hd_error (Pipe.argv c)) (Pipe.argv c))) x)
      p' w'))) = became (log w) ++ qs ++ [qf] /\
    pid qf = pid p /\
    (forall k, k <> 0%nat -> fd_get (fds qf) k = fd_get (fds p') k) /\
    (fd_get (fds qf) 0 = fd_get (fds p') 0 \/
     exists o, fd_get (fds p') m' = Some o /\ fd_get (fds qf) 0 = Some o)).
  { change 0 with (Z.of_nat 0). rewrite of_nat_eqb.
    destruct m' as [|m'].
    - cbn [Nat.eqb negb bind call]. exists p'.
      split; [apply Hexec; auto|]. auto.
    - cbn [Nat.eqb negb bind call].
      rewrite (interp_dup2 os _ _ _ _ _ _ Hcur'). cbn [bind].
      eexists. split; [apply Hexec; [exact Hdir|]|].
      + rewrite became_emit. cbn [became]. apply app_nil_r.
      + cbn [pid fds set_fds]. split; [exact Hpid|]. split.
        * intros k Hk. fd_simpl. reflexivity.
        * right. eexists. split; [exact Hcur'|]. fd_simpl. reflexivity. }
  destruct Hfinal as (qf & Hbf & Hpf & Hkf & H0f).
  exists (qs ++ [qf]). split; [exact Hbf|].
  split; [rewrite length_app, Hlen; cbn [List.length]; lia|].
  intros j q Hq.
  destruct (Nat.lt_ge_cases j (List.length qs)) as [Hj|Hj].
  - rewrite nth_error_app1 in Hq by exact Hj.
    destruct (Hqs j q Hq) as (Hpidq & _ & Hrd & Hwe).
    unfold stage_tables.
    replace (S j <? n)%nat with true by (symmetry; apply Nat.ltb_lt; lia).
    split; [exact Hpidq|]. split.
    + intros i Hi _. apply Hrd. exact Hi.
    + intros k x Hk. destruct (Hwe k x Hk) as [[-> ->]|[_ Hh]].
      * left. repeat split; lia.
      * right. exact Hh.
  - rewrite nth_error_app2 in Hq by exact Hj.
    destruct (j - List.length qs)%nat as [|d] eqn:Ed;
      [|destruct d; discriminate].
    cbn [nth_error] in Hq. injection Hq as <-.
    assert (j = (n - 1)%nat) by lia. subst j.
    unfold stage_tables.
    replace (S (n - 1) <? n)%nat with false
      by (symmetry; apply Nat.ltb_ge; lia).
    split; [exact Hpf|]. split.
    + intros i _ Hi. destruct (Hreads i Hi) as (k & Hk0 & _ & Hk).
      exists k. rewrite Hkf by exact Hk0. exact Hk.
    + intros k x Hk. right.
      assert (Hp' : fd_get (fds p') k = Some (PipeW x) \/
                    fd_get (fds p') m' = Some (PipeW x)).
      { destruct (Nat.eq_dec k 0) as [->|Hk0].
        - destruct H0f as [H0f|(o & Ho & H0f)].
          + left. congruence.
          + right. congruence.
        - left. rewrite <- Hkf by exact Hk0. exact Hk. }
      destruct Hp' as [Hp'|Hp'];
        (destruct (Hnew _ _ Hp') as [Hold|(i' & _ & Hi')];
         [eexists; exact Hold|discriminate]).
Qed.

(** X12.  No read end is given up.  In a pipeline of [n] stages whose
    programs resolve, on a host where fork and pipe do not fail, the
    process that becomes stage [j] holds, at its call of execvp, the read
    end of every pipe made up to its turn: pipe [i] for every [i <= j]
    below [n - 1].  So a child holds the read end of the pipe it writes
    to, and the orchestrator, as the last stage, the read ends of all the
    pipes. *)
Theorem stages_hold_read_ends (fd0 : Z * Z) (cmd : list Pipe.command)
    (p : proc) (w : world) :
  cmd <> [] ->
  Forall (resolves os (dir p)) cmd ->
  fd_get (fds p) 0 <> None ->
  fd_get (fds p) 1 <> None ->
  let n := List.length cmd in
  exists qs,
    became (log (snd (interp os (Pipe.fork_pipes fd0 (Z.of_nat n) cmd) p w)))
      = became (log w) ++ qs /\
    List.length qs = n /\
    forall j q i, nth_error qs j = Some q -> (i <= j)%nat -> (i < n - 1)%nat ->
      pid q = stage_pid (pipeline_stage p w cmd n j) /\
      holds (fds q) (PipeR (next_pipe w + i)).
Proof.
  intros Hne Hargv H0 H1 n.
  destruct (fork_pipes_tables fd0 cmd p w Hne Hargv H0 H1)
    as (qs & Hb & Hlen & Hqs).
  exists qs. split; [exact Hb|]. split; [exact Hlen|].
  intros j q i Hq Hi Hn. destruct (Hqs j q Hq) as (Hpid & Hrd & _).
  split; [exact Hpid|]. apply Hrd; assumption.
Qed.

(** X13.  Write ends are given up.  With the hypotheses of X12, for a
    caller that holds no write end of a pipe not yet made: a write end of
    one of the pipeline's pipes that the process becoming stage [j] holds
    at its call of execvp is its descriptor 1, is the write end of pipe
    [j], and [j] is not the last stage.  The last stage holds none. *)
Theorem stages_hold_one_write_end (fd0 : Z * Z) (cmd : list Pipe.command)
    (p : proc) (w : world) :
  cmd <> [] ->
  Forall (resolves os (dir p)) cmd ->
  fd_get (fds p) 0 <> None ->
  fd_get (fds p) 1 <> None ->
  (forall k x, fd_get (fds p) k = Some (PipeW x) -> (x < next_pipe w)%nat) ->
  let n := List.length cmd in
  exists qs,
    became (log (snd (interp os (Pipe.fork_pipes fd0 (Z.of_nat n) cmd) p w)))
      = became (log w) ++ qs /\
    List.length qs = n /\
    forall j q k i, nth_error qs j = Some q ->
      fd_get (fds q) k = Some (PipeW (next_pipe w + i)) ->
      k = 1%nat /\ i = j /\ (S j < n)%nat.
Proof.
  intros Hne Hargv H0 H1 Hfresh n.
  destruct (fork_pipes_tables fd0 cmd p w Hne Hargv H0 H1)
    as (qs & Hb & Hlen & Hqs).
  exists qs. split; [exact Hb|]. split; [exact Hlen|].
  intros j q k i Hq Hk. destruct (Hqs j q Hq) as (_ & _ & Hwe).
  destruct (Hwe k _ Hk) as [(-> & Hx & Hj)|[k' Hk']].
  - repeat split; [lia|exact Hj].
  - apply Hfresh in Hk'. lia.
Qed.

End PipelineTables.

(** X12 on the pipeline of [main]. *)
Lemma stages_hold_read_ends_witness :
  exists qs,
    became (log (snd (interp host_ok (Pipe.main (0, 0)) proc0 (boot []))))
      = qs /\
    List.length qs = 4%nat /\
    forall j q i, nth_error qs j = Some q -> (i <= j)%nat -> (i < 3)%nat ->
      pid q = stage_pid (pipeline_stage proc0 (boot [])
                [Pipe.ls; Pipe.awk; Pipe.sort; Pipe.uniq] 4 j) /\
      holds (fds q) (PipeR i).
Proof.
  apply (stages_hold_read_ends host_ok
           (fun _ => eq_refl) (fun _ => eq_refl)
           (0, 0) [Pipe.ls; Pipe.awk; Pipe.sort; Pipe.uniq] proc0 (boot [])).
  - discriminate.
  - repeat constructor.
  - discriminate.
  - discriminate.
Defined.

(** X13 on the pipeline of [main]. *)
Lemma stages_hold_one_write_end_witness :
  exists qs,
    became (log (snd (interp host_ok (Pipe.main (0, 0)) proc0 (boot []))))
      = qs /\
    List.length qs = 4%nat /\
    forall j q k i, nth_error qs j = Some q ->
      fd_get (fds q) k = Some (PipeW i) ->
      k = 1%nat /\ i = j /\ (S j < 4)%nat.
Proof.
  apply (stages_hold_one_write_end host_ok
           (fun _ => eq_refl) (fun _ => eq_refl)
           (0, 0) [Pipe.ls; Pipe.awk; Pipe.sort; Pipe.uniq] proc0 (boot [])).
  - discriminate.
  - repeat constructor.
  - discriminate.
  - discriminate.
  - intros [|[|[|[|k]]]] x H; discriminate H.
Defined.

(* ================================================================== *)
(** ** A pipeline on a host where fork fails *)
(* ================================================================== *)

Section PipelineNoFork.

Variable os : os_model.

(** The host of this section: every fork fails, no pipe does. *)
Hypothesis fork_never : forall k, fork_fails os k = true.
Hypothesis pipe_always : forall k, pipe_fails os k = false.

(** The loop of [fork_pipes] when fork fails: [spawn_proc] returns -1,
    which the loop does not look at. *)
Lemma fork_pipes_loop_no_fork {R : Type} (cmd : list Pipe.command)
    (i0 o0 : fobj) (f : Z * Z -> prog R) (count : nat) :
  forall (i m : nat) (cur : fobj) (p : proc) (w : world) (fd : Z * Z),
  fd_get (fds p) 0 = Some i0 ->
  fd_get (fds p) 1 = Some o0 ->
  m <> 1%nat ->
  fd_get (fds p) m = Some cur ->
  exists p' w' m',
    interp os
      (bind (Pipe.fork_pipes_loop count cmd (Z.of_nat i) (Z.of_nat m) fd) f)
      p w =
    interp os (f (Z.of_nat (i + count), Z.of_nat m')) p' w' /\
    pid p' = pid p /\
    dir p' = dir p /\
    fd_get (fds p') 0 = Some i0 /\
    fd_get (fds p') 1 = Some o0 /\
    m' <> 1%nat /\
    fd_get (fds p') m' =
      Some (match count with
            | O => cur
            | S c => PipeR (next_pipe w + c)
            end) /\
    stage_runs (log w') = stage_runs (log w) /\
    (forall n, children_of n (log w') = children_of n (log w)) /\
    only_new silent_event w w' /\
    next_pipe w' = (next_pipe w + count)%nat.
Proof.
  induction count as [|count IH]; intros i m cur p w fd H0 H1 Hm1 Hcur.
  - exists p, w, m. cbn [Pipe.fork_pipes_loop bind].
    rewrite !Nat.add_0_r. repeat split; auto.
    intros x Hx. left. exact Hx.
  - cbn [Pipe.fork_pipes_loop bind call].
    rewrite interp_vis. cbn [handle]. rewrite pipe_always. cbn [fst snd].
    rewrite run_outs_one.
    set (r := fd_alloc (fds p)).
    set (t1 := fd_put (fds p) r (Some (PipeR (next_pipe w)))).
    set (wr := fd_alloc t1).
    set (t2 := fd_put t1 wr (Some (PipeW (next_pipe w)))).
    assert (Hr0 : r <> 0%nat) by (apply (fd_alloc_not_open _ _ _ H0)).
    assert (Hr1 : r <> 1%nat) by (apply (fd_alloc_not_open _ _ _ H1)).
    assert (Hw0 : wr <> 0%nat).
    { apply (fd_alloc_not_open t1 0%nat i0). unfold t1. fd_simpl. exact H0. }
    assert (Hw1 : wr <> 1%nat).
    { apply (fd_alloc_not_open t1 1%nat o0). unfold t1. fd_simpl. exact H1. }
    assert (Hwr : wr <> r).
    { apply (fd_alloc_not_open t1 r (PipeR (next_pipe w))).
      unfold t1. fd_simpl. reflexivity. }
    rewrite interp_vis. cbn [handle fst snd]. rewrite run_outs_one.
    unfold Pipe.spawn_proc. cbn [bind call].
    rewrite interp_vis. cbn [handle fst snd]. rewrite run_outs_one.
    rewrite interp_vis. cbn [handle nfork emit]. rewrite fork_never.
    cbn [fst snd]. rewrite run_outs_one.
    change (-1 =? 0) with false. cbv match. cbn [bind].
    rewrite (interp_close os _ _ _ wr (PipeW (next_pipe w)))
      by (cbn [fds set_fds]; unfold t2; fd_simpl; reflexivity).
    replace (Z.of_nat i + 1) with (Z.of_nat (S i)) by lia.
    match goal with
    | |- context [interp os (bind (Pipe.fork_pipes_loop _ _ _ _ ?fd1) f)
                    ?q ?w0] =>
        destruct (IH (S i) r (PipeR (next_pipe w)) q w0 fd1)
          as (p' & w' & m' & E & Hpid & Hdir & H0' & H1' & Hm' & Hcur' & Hs'
              & Hk' & Hl' & Hp2')
    end.
    { cbn [fds set_fds]. unfold t2, t1. fd_simpl. exact H0. }
    { cbn [fds set_fds]. unfold t2, t1. fd_simpl. exact H1. }
    { exact Hr1. }
    { cbn [fds set_fds]. unfold t2, t1. fd_simpl. reflexivity. }
    exists p', w', m'.
    replace (i + S count)%nat with (S i + count)%nat by lia.
    split; [exact E|]. split; [exact Hpid|]. split; [exact Hdir|].
    split; [exact H0'|]. split; [exact H1'|]. split; [exact Hm'|].
    split.
    { rewrite Hcur'. cbn [next_pipe emit new_pipe count_pipe count_fork].
      f_equal. destruct count; f_equal; lia. }
    split.
    { rewrite Hs'. log_simpl. cbn [stage_runs]. rewrite !app_nil_r.
      reflexivity. }
    split.
    { intros n. rewrite Hk'. log_simpl. cbn [children_of].
      rewrite andb_false_r, !app_nil_r. reflexivity. }
    split.
    { intros x Hx. destruct (Hl' x Hx) as [Hin|Hok]; [|right; exact Hok].
      repeat first
        [ rewrite in_log_emit in Hin
        | progress cbn [log new_pipe count_pipe count_fork] in Hin ].
      log_cases; subst; cbn [snd silent_event]; auto. }
    rewrite Hp2'. cbn [next_pipe emit new_pipe count_pipe count_fork]. lia.
Qed.

(** X14.  [fork_pipes] on a host where every fork fails (pipe does not,
    and the last program resolves): [spawn_proc] returns -1, which the
    loop does not look at.  No child is created and no diagnostic is
    printed; the only stage that runs is the last, in the orchestrator,
    reading the read end of the last pipe, which no process writes. *)
Theorem pipeline_fork_failure_unnoticed (fd0 : Z * Z)
    (cmd : list Pipe.command) (p : proc) (w : world) :
  cmd <> [] ->
  resolves os (dir p) (last cmd (Pipe.mkCommand [])) ->
  fd_get (fds p) 0 <> None ->
  fd_get (fds p) 1 <> None ->
  let n := List.length cmd in
  let r := interp os (Pipe.fork_pipes fd0 (Z.of_nat n) cmd) p w in
  fst r = [] /\
  stage_runs (log (snd r)) =
    stage_runs (log w) ++ [pipeline_stage p w cmd n (n - 1)] /\
  children_of (pid p) (log (snd r)) = children_of (pid p) (log w) /\
  only_new silent_event w (snd r).
Proof.
  intros Hne Hargc H0 H1 n r.
  destruct (fd_get (fds p) 0) as [i0|] eqn:E0; [clear H0|congruence].
  destruct (fd_get (fds p) 1) as [o0|] eqn:E1; [clear H1|congruence].
  assert (Hn : (1 <= n)%nat).
  { unfold n. destruct cmd; [congruence|simpl; lia]. }
  assert (Hc : nth_error cmd (n - 1) = Some (last cmd (Pipe.mkCommand []))).
  { unfold n. destruct (exists_last Hne) as (l & a & ->).
    rewrite last_last, length_app. cbn [List.length].
    replace (List.length l + 1 - 1)%nat with (List.length l) by lia.
    rewrite nth_error_app2 by lia. rewrite Nat.sub_diag. reflexivity. }
  set (c := last cmd (Pipe.mkCommand [])) in *.
  subst r. unfold Pipe.fork_pipes.
  replace (Z.to_nat (Z.of_nat n - 1)) with (n - 1)%nat by lia.
  match goal with
  | |- context [interp os (bind (Pipe.fork_pipes_loop _ _ _ _ _) ?f) _ _] =>
      destruct (fork_pipes_loop_no_fork cmd i0 o0 f (n - 1) 0%nat 0%nat i0
                  p w fd0)
        as (p' & w' & m' & E & Hpid & Hdir & H0' & H1' & Hm' & Hcur' & Hs'
            & Hk' & Hl' & Hp2'); auto
  end.
  cbn [Z.of_nat] in E. rewrite E. clear E. cbn [Nat.add].
  rewrite cmd_at_of_nat, Hc.
  assert (Hexec : forall (q : proc) (k : Z -> prog Z),
    pid q = pid p ->
    dir q = dir p ->
    fd_get (fds q) 0 =
      Some (match (n - 1)%nat with
            | O => i0
            | S c => PipeR (next_pipe w + c)
            end) ->
    fd_get (fds q) 1 = Some o0 ->
    forall w0,
    stage_runs (log w0) = stage_runs (log w') ->
    (forall n, children_of n (log w0) = children_of n (log w')) ->
    only_new silent_event w' w0 ->
    let r := interp os (Vis (Execvp (hd_error (Pipe.argv c)) (Pipe.argv c)) k)
               q w0 in
    fst r = [] /\
    stage_runs (log (snd r)) =
      stage_runs (log w) ++ [pipeline_stage p w cmd n (n - 1)] /\
    children_of (pid p) (log (snd r)) = children_of (pid p) (log w) /\
    only_new silent_event w (snd r)).
  { intros q k Hq Hqd Hq0 Hq1 w0 Hw0s Hw0k Hw0l. cbv zeta.
    rewrite interp_vis.
    unfold resolves in Hargc.
    destruct (Pipe.argv c) as [|a0 rest] eqn:Ea; [contradiction|].
    cbn [hd_error handle]. rewrite Hqd, Hargc. cbn [fst snd].
    rewrite run_outs_nil. cbn [fst snd]. split; [reflexivity|].
    log_simpl. rewrite Hw0s, Hw0k, Hs', Hk'.
    cbn [stage_runs children_of].
    rewrite Hq, Hq0, Hq1, app_nil_r.
    split; [|split; [reflexivity|]].
    - f_equal. unfold pipeline_stage.
      replace (S (n - 1) <? n)%nat with false
        by (symmetry; apply Nat.ltb_ge; lia).
      rewrite (nth_error_nth cmd (n - 1) (Pipe.mkCommand []) Hc), Ea, E1.
      do 2 f_equal. destruct (n - 1)%nat; [symmetry; exact E0|reflexivity].
    - intros x Hx. rewrite in_log_emit in Hx.
      destruct Hx as [Hx| ->]; [|right; exact I].
      destruct (Hw0l x Hx) as [Hin|Hok]; [|right; exact Hok].
      destruct (Hl' x Hin) as [Hin'|Hok]; auto. }
  change 0 with (Z.of_nat 0). rewrite of_nat_eqb.
  destruct m' as [|m'].
  - cbn [Nat.eqb negb bind]. apply Hexec; auto.
    intros x Hx. left. exact Hx.
  - cbn [Nat.eqb negb bind call].
    rewrite (interp_dup2 os _ _ _ _ _ _ Hcur'). cbn [bind].
    apply Hexec; auto.
    + cbn [fds set_fds]. fd_simpl. reflexivity.
    + cbn [fds set_fds]. fd_simpl. exact H1'.
    + log_simpl. cbn [stage_runs]. apply app_nil_r.
    + intros n0. log_simpl. cbn [children_of]. apply app_nil_r.
    + intros x Hx. rewrite in_log_emit in Hx.
      destruct Hx as [Hx| ->]; [left; exact Hx|right; exact I].
Qed.

End PipelineNoFork.

(** X14 on the pipeline of [main], the process table being full. *)
Lemma pipeline_fork_failure_unnoticed_witness :
  let r := interp host_full (Pipe.main (0, 0)) proc0 (boot []) in
  fst r = [] /\
  stage_runs (log (snd r)) = [mkStage 100 ["uniq"] (Some (PipeR 2)) (Some Stdout0)] /\
  children_of 100 (log (snd r)) = [] /\
  only_new silent_event (boot []) (snd r).
Proof.
  apply (pipeline_fork_failure_unnoticed host_full
           (fun _ => eq_refl) (fun _ => eq_refl)
           (0, 0) [Pipe.ls; Pipe.awk; Pipe.sort; Pipe.uniq] proc0 (boot [])).
  - discriminate.
  - reflexivity.
  - discriminate.
  - discriminate.
Defined.
